(** * Wythoff construction of uniform polytopes: a model of [polytopes/models.py]

    The development embeds the classes [BasePolytope], [Polyhedra], [Snub]
    and [Polychora] as state-passing functions over a record of the object's
    attributes.  Python exceptions are results of an error monad.  The
    modules the file imports ([todd_coxeter], [helpers], [numpy]) are
    collaborators: they are taken as the fields of a class, so every theorem
    holds for every implementation of them. *)

From Stdlib Require Import String.
From Stdlib Require Import List ZArith Bool Lia Arith DecimalString.
Import ListNotations.

(** ** Exceptions and the error monad *)

Inductive exn : Type :=
| ValueError (msg : string)
| IndexError
| TypeError
| AttributeError
| KeyError
| CollaboratorError (msg : string).

Inductive result (A : Type) : Type :=
| Ok (a : A)
| Raise (e : exn).

Arguments Ok {A} a.
Arguments Raise {A} e.

Definition bind {A B : Type} (c : result A) (k : A -> result B) : result B :=
  match c with
  | Ok a => k a
  | Raise e => Raise e
  end.

Declare Scope py_scope.
Delimit Scope py_scope with py.
Notation "x <- c ;; k" := (bind c (fun x => k))
  (at level 61, c at next level, right associativity) : py_scope.
Open Scope py_scope.

(** From [H : (x <- c ;; k) = Ok b], the value [c] returned and what the
    rest returned on it. *)
Ltac inv_bind H :=
  let a := fresh "x" in
  let e := fresh "e" in
  let Ha := fresh "E" in
  cbv beta in H;
  match type of H with
  | bind ?c _ = Ok _ =>
      destruct c as [a|e] eqn:Ha; [cbn [bind] in H | discriminate H]
  end.

(** [for x in l: ...] collecting one value per element, stopping at the
    first exception. *)
Fixpoint mapM {A B : Type} (f : A -> result B) (l : list A) : result (list B) :=
  match l with
  | [] => Ok []
  | x :: l' =>
      y <- f x ;;
      ys <- mapM f l' ;;
      Ok (y :: ys)
  end.

(** [for x in l: acc = body(acc, x)] *)
Fixpoint foldM {A S : Type} (body : S -> A -> result S) (l : list A) (acc : S)
  : result S :=
  match l with
  | [] => Ok acc
  | x :: l' =>
      acc' <- body acc x ;;
      foldM body l' acc'
  end.

(** ** Python sequences *)

(** [l[i]] for a non-negative index. *)
Definition getitem {A : Type} (l : list A) (i : nat) : result A :=
  match nth_error l i with
  | Some a => Ok a
  | None => Raise IndexError
  end.

(** [enumerate(l)] *)
Definition enumerate {A : Type} (l : list A) : list (nat * A) :=
  combine (seq 0 (length l)) l.

(** [itertools.combinations(l, 2)] *)
Fixpoint combinations2 {A : Type} (l : list A) : list (A * A) :=
  match l with
  | [] => []
  | x :: l' => map (pair x) l' ++ combinations2 l'
  end.

(** A word in the generators. *)
Definition word := list nat.

(** [w * n] for a tuple [w] and an integer [n]: empty when [n <= 0]. *)
Definition tuple_mul (w : word) (n : Z) : word :=
  concat (repeat w (Z.to_nat n)).

(** [range(n)] for an integer [n]: empty when [n <= 0]. *)
Definition range (n : Z) : list nat := seq 0 (Z.to_nat n).

(** [x in l] for tuples of vertex indices. *)
Definition pair_eqb (e1 e2 : nat * nat) : bool :=
  (fst e1 =? fst e2) && (snd e1 =? snd e2).

Definition pair_in (e : nat * nat) (l : list (nat * nat)) : bool :=
  existsb (pair_eqb e) l.

Fixpoint list_eqb (f g : list nat) : bool :=
  match f, g with
  | [], [] => true
  | x :: f', y :: g' => (x =? y) && list_eqb f' g'
  | _, _ => false
  end.

(** [sum(len(x) for x in ll)] *)
Definition total_length {A : Type} (ll : list (list A)) : nat :=
  fold_right (fun l n => length l + n) 0 ll.

(** ** The collaborators *)

(** What a finished coset enumeration gives: the action table (rows are
    cosets, columns are generators) and one representative word per coset. *)
Record coset_table : Type := {
  ct_table : list (list nat);
  ct_words : list word
}.

(** The imported modules.  [truth] is Python's [bool(x)] on an entry of the
    distance vector, [dot] is [numpy.dot] of a row vector and a matrix.
    [CosetTable_run gens rels subgens coxeter] stands for building
    [todd_coxeter.CosetTable(gens, rels, subgens, coxeter=...)] and running
    it; an argument the call site leaves out is [None]. *)
Class Collaborators : Type := {
  Dist : Type;
  Vec : Type;
  Mat : Type;
  truth : Dist -> bool;
  dot : Vec -> Mat -> Vec;
  get_coxeter_matrix : list Z -> result (list (list Z));
  get_mirrors : list Z -> result (list Vec);
  reflection_matrix : Vec -> result Mat;
  get_init_point : list Vec -> list Dist -> result Vec;
  CosetTable_run :
    list nat -> list word -> option (list word) -> option bool -> result coset_table
}.

(** ** The attributes of a polytope object *)

Section Attributes.
Context {C : Collaborators}.

Record polytope : Type := {
  coxeter_matrix : list (list Z);
  _mirrors : list Vec;
  _reflections : list Mat;
  init_v : Vec;
  active : list bool;
  symmetry_gens : list nat;
  symmetry_rels : list word;
  (* None until get_vertices has run *)
  _vtable : option coset_table;
  _vwords : option (list word);
  num_vertices : option nat;
  vertex_coords : list Vec;
  num_edges : option nat;
  edge_indices : list (list (nat * nat));
  edge_coords : list (list (Vec * Vec));
  num_faces : option nat;
  face_indices : list (list (list nat));
  face_coords : list (list (list Vec))
}.

(** Attribute assignments. *)
Definition set_presentation (self : polytope) (gens : list nat) (rels : list word)
  : polytope :=
  {| coxeter_matrix := coxeter_matrix self; _mirrors := _mirrors self;
     _reflections := _reflections self; init_v := init_v self;
     active := active self;
     symmetry_gens := gens; symmetry_rels := rels;
     _vtable := _vtable self; _vwords := _vwords self;
     num_vertices := num_vertices self; vertex_coords := vertex_coords self;
     num_edges := num_edges self; edge_indices := edge_indices self;
     edge_coords := edge_coords self;
     num_faces := num_faces self; face_indices := face_indices self;
     face_coords := face_coords self |}.

Definition set_vertices (self : polytope) (t : coset_table) (ws : list word)
    (n : nat) (coords : list Vec) : polytope :=
  {| coxeter_matrix := coxeter_matrix self; _mirrors := _mirrors self;
     _reflections := _reflections self; init_v := init_v self;
     active := active self;
     symmetry_gens := symmetry_gens self; symmetry_rels := symmetry_rels self;
     _vtable := Some t; _vwords := Some ws;
     num_vertices := Some n; vertex_coords := coords;
     num_edges := num_edges self; edge_indices := edge_indices self;
     edge_coords := edge_coords self;
     num_faces := num_faces self; face_indices := face_indices self;
     face_coords := face_coords self |}.

(** [self.edge_indices.append(elist); self.edge_coords.append(ecoords)] *)
Definition append_edges (self : polytope) (elist : list (nat * nat))
    (ecoords : list (Vec * Vec)) : polytope :=
  {| coxeter_matrix := coxeter_matrix self; _mirrors := _mirrors self;
     _reflections := _reflections self; init_v := init_v self;
     active := active self;
     symmetry_gens := symmetry_gens self; symmetry_rels := symmetry_rels self;
     _vtable := _vtable self; _vwords := _vwords self;
     num_vertices := num_vertices self; vertex_coords := vertex_coords self;
     num_edges := num_edges self;
     edge_indices := edge_indices self ++ [elist];
     edge_coords := edge_coords self ++ [ecoords];
     num_faces := num_faces self; face_indices := face_indices self;
     face_coords := face_coords self |}.

Definition set_num_edges (self : polytope) (n : nat) : polytope :=
  {| coxeter_matrix := coxeter_matrix self; _mirrors := _mirrors self;
     _reflections := _reflections self; init_v := init_v self;
     active := active self;
     symmetry_gens := symmetry_gens self; symmetry_rels := symmetry_rels self;
     _vtable := _vtable self; _vwords := _vwords self;
     num_vertices := num_vertices self; vertex_coords := vertex_coords self;
     num_edges := Some n; edge_indices := edge_indices self;
     edge_coords := edge_coords self;
     num_faces := num_faces self; face_indices := face_indices self;
     face_coords := face_coords self |}.

(** [self.face_indices.append(flist); self.face_coords.append(fcoords)] *)
Definition append_faces (self : polytope) (flist : list (list nat))
    (fcoords : list (list Vec)) : polytope :=
  {| coxeter_matrix := coxeter_matrix self; _mirrors := _mirrors self;
     _reflections := _reflections self; init_v := init_v self;
     active := active self;
     symmetry_gens := symmetry_gens self; symmetry_rels := symmetry_rels self;
     _vtable := _vtable self; _vwords := _vwords self;
     num_vertices := num_vertices self; vertex_coords := vertex_coords self;
     num_edges := num_edges self; edge_indices := edge_indices self;
     edge_coords := edge_coords self;
     num_faces := num_faces self;
     face_indices := face_indices self ++ [flist];
     face_coords := face_coords self ++ [fcoords] |}.

Definition set_num_faces (self : polytope) (n : nat) : polytope :=
  {| coxeter_matrix := coxeter_matrix self; _mirrors := _mirrors self;
     _reflections := _reflections self; init_v := init_v self;
     active := active self;
     symmetry_gens := symmetry_gens self; symmetry_rels := symmetry_rels self;
     _vtable := _vtable self; _vwords := _vwords self;
     num_vertices := num_vertices self; vertex_coords := vertex_coords self;
     num_edges := num_edges self; edge_indices := edge_indices self;
     edge_coords := edge_coords self;
     num_faces := Some n; face_indices := face_indices self;
     face_coords := face_coords self |}.

(** [self._vtable[vertex][w]]: indexing the table object by a coset gives
    that coset's row, which is indexed by the generator.  Before
    [get_vertices] the attribute is [None], which cannot be indexed. *)
Definition vtable_lookup (self : polytope) (vertex w : nat) : result nat :=
  match _vtable self with
  | None => Raise TypeError
  | Some t =>
      row <- getitem (ct_table t) vertex ;;
      getitem row w
  end.

(** [self._move(vertex, word)], the same method in every class. *)
Fixpoint _move (self : polytope) (vertex : nat) (word : word) : result nat :=
  match word with
  | [] => Ok vertex
  | w :: word' =>
      vertex' <- vtable_lookup self vertex w ;;
      _move self vertex' word'
  end.

(** [self.coxeter_matrix[i][j]] *)
Definition coxeter_entry (self : polytope) (i j : nat) : result Z :=
  row <- getitem (coxeter_matrix self) i ;;
  getitem row j.

(** [self._vwords], an attribute that exists only after [get_vertices]. *)
Definition get_vwords (self : polytope) : result (list word) :=
  match _vwords self with
  | Some ws => Ok ws
  | None => Raise AttributeError
  end.

End Attributes.

(** Reads the attributes of an object that an assignment has just built. *)
Ltac read_attributes :=
  cbn [coxeter_matrix _mirrors _reflections init_v active symmetry_gens
       symmetry_rels _vtable _vwords num_vertices vertex_coords num_edges
       edge_indices edge_coords num_faces face_indices face_coords
       set_presentation set_vertices append_edges set_num_edges append_faces
       set_num_faces] in *.

(** ** Duplicate faces *)

(** One step of cyclic rotation of a vertex-index sequence. *)
Definition rot1 (f : list nat) : list nat :=
  match f with
  | [] => []
  | x :: f' => f' ++ [x]
  end.

(** The first [n] rotations of [f]. *)
Fixpoint rotations_of (n : nat) (f : list nat) : list (list nat) :=
  match n with
  | O => []
  | S n' => f :: rotations_of n' (rot1 f)
  end.

(** Every sequence that is [f] rotated, or [f] reversed and rotated. *)
Definition face_variants (f : list nat) : list (list nat) :=
  rotations_of (S (length f)) f ++ rotations_of (S (length f)) (rev f).

(** Modelled from the spec: [helpers.check_duplicate_face], whose module is
    not among the sources.  A candidate is a duplicate if it matches an
    already collected face up to cyclic rotation and reversal of the
    sequence. *)
Definition check_duplicate_face (f : list nat) (l : list (list nat)) : bool :=
  existsb (fun g => existsb (list_eqb g) (face_variants f)) l.

(** ** Words in LaTeX *)

(** What [get_word_representations] gives: a string, one of the exceptions
    above, or the [ZeroDivisionError] of [i % cols]. *)
Inductive repr_result : Type :=
| Repr (s : string)
| ReprRaise (e : exn)
| ZeroDivisionError.

(** [str(n)] for a non-negative integer. *)
Definition str_of_nat (n : nat) : string :=
  NilEmpty.string_of_uint (Nat.to_uint n).

(** [s * n] for a string [s] and an integer [n]: empty when [n <= 0]. *)
Definition str_mul (s : string) (n : Z) : string :=
  String.concat "" (repeat s (Z.to_nat n)).

(** The nested function [to_latex(word)]: ["e"] for the empty word, else
    ["".join(symbol + "_{{{}}}".format(i) for i in word)], with [i//2] for
    [i] when [snub] is set. *)
Definition to_latex (symbol : string) (snub : bool) (word : word) : string :=
  match word with
  | [] => "e"
  | _ :: _ =>
      if snub
      then String.concat ""
             (map (fun i => symbol ++ "_{" ++ str_of_nat (i / 2) ++ "}") word)
      else String.concat ""
             (map (fun i => symbol ++ "_{" ++ str_of_nat i ++ "}") word)
  end%string.

(** The loop [for i, word in enumerate(self._vwords)] on the pairs left,
    with the string built so far.  [i % cols] raises when [cols] is 0; in
    [i > 0 and i % cols == 0] it is not computed when [i] is 0. *)
Fixpoint repr_loop (symbol : string) (cols : Z) (snub : bool)
    (iws : list (nat * word)) (latex : string) : repr_result :=
  match iws with
  | [] => Repr latex
  | (i, word) :: iws' =>
      if (0 <? i) && (cols =? 0)%Z then ZeroDivisionError
      else
        let latex1 :=
          if (0 <? i) && (Z.of_nat i mod cols =? 0)%Z
          then (latex ++ "\\")%string else latex in
        let latex2 := (latex1 ++ to_latex symbol snub word)%string in
        if (cols =? 0)%Z then ZeroDivisionError
        else
          let latex3 :=
            if negb (Z.of_nat i mod cols =? cols - 1)%Z
            then (latex2 ++ "&")%string else latex2 in
          repr_loop symbol cols snub iws' latex3
  end.

(** ** class BasePolytope *)

Module BasePolytope.
Section Methods.
Context {C : Collaborators}.

(** [__init__(self, upper_triangle, init_dist)] *)
Definition init (upper_triangle : list Z) (init_dist : list Dist)
  : result polytope :=
  cm <- get_coxeter_matrix upper_triangle ;;
  mirrors <- get_mirrors upper_triangle ;;
  reflections <- mapM reflection_matrix mirrors ;;
  v <- get_init_point mirrors init_dist ;;
  let act := map truth init_dist in
  let dim := length cm in
  let gens := seq 0 dim in
  rels <- mapM (fun ij : nat * nat =>
                  row <- getitem cm (fst ij) ;;
                  m <- getitem row (snd ij) ;;
                  Ok (tuple_mul [fst ij; snd ij] m))
               (combinations2 gens) ;;
  Ok {| coxeter_matrix := cm; _mirrors := mirrors;
        _reflections := reflections; init_v := v; active := act;
        symmetry_gens := gens; symmetry_rels := rels;
        _vtable := None; _vwords := None;
        num_vertices := None; vertex_coords := [];
        num_edges := None; edge_indices := []; edge_coords := [];
        num_faces := None; face_indices := []; face_coords := [] |}.

(** [_transform(self, vector, word)] *)
Fixpoint _transform (self : polytope) (vector : Vec) (word : word) : result Vec :=
  match word with
  | [] => Ok vector
  | w :: word' =>
      r <- getitem (_reflections self) w ;;
      _transform self (dot vector r) word'
  end.

(** [[(i,) for i, active in enumerate(self.active) if not active]] *)
Definition vgens (self : polytope) : list word :=
  map (fun ia : nat * bool => [fst ia])
      (filter (fun ia : nat * bool => negb (snd ia)) (enumerate (active self))).

Definition get_vertices (self : polytope) : result polytope :=
  vtable <- CosetTable_run (symmetry_gens self) (symmetry_rels self)
                           (Some (vgens self)) None ;;
  let vwords := ct_words vtable in
  coords <- mapM (_transform self (init_v self)) vwords ;;
  Ok (set_vertices self vtable vwords (length vwords) coords).

(** The body of [for word in words] in [get_edges]. *)
Definition edge_step (self : polytope) (i : nat) (elist : list (nat * nat))
    (word : word) : result (list (nat * nat)) :=
  v1 <- _move self 0 word ;;
  v2 <- _move self 0 (i :: word) ;;
  if negb (pair_in (v1, v2) elist) && negb (pair_in (v2, v1) elist)
  then Ok (elist ++ [(v1, v2)])
  else Ok elist.

(** [(self.vertex_coords[x], self.vertex_coords[y])] *)
Definition edge_coord (self : polytope) (e : nat * nat) : result (Vec * Vec) :=
  cx <- getitem (vertex_coords self) (fst e) ;;
  cy <- getitem (vertex_coords self) (snd e) ;;
  Ok (cx, cy).

(** The body of [for i, active in enumerate(self.active)]. *)
Definition edge_type_step (self : polytope) (ia : nat * bool) : result polytope :=
  if snd ia then
    etable <- CosetTable_run (symmetry_gens self) (symmetry_rels self)
                             (Some [[fst ia]]) None ;;
    elist <- foldM (edge_step self (fst ia)) (ct_words etable) [] ;;
    ecoords <- mapM (edge_coord self) elist ;;
    Ok (append_edges self elist ecoords)
  else Ok self.

Definition get_edges (self : polytope) : result polytope :=
  self' <- foldM edge_type_step (enumerate (active self)) self ;;
  Ok (set_num_edges self' (total_length (edge_indices self'))).

(** The loop that fills [f0] when both mirrors are active. *)
Definition f0_both (self : polytope) (i j : nat) (m : Z) : result (list nat) :=
  foldM (fun f0 k =>
           a <- _move self 0 (tuple_mul [i; j] (Z.of_nat k)) ;;
           b <- _move self 0 (j :: tuple_mul [i; j] (Z.of_nat k)) ;;
           Ok ((f0 ++ [a]) ++ [b]))
        (range m) [].

(** The loop that fills [f0] when one mirror is active. *)
Definition f0_one (self : polytope) (i j : nat) (m : Z) : result (list nat) :=
  foldM (fun f0 k =>
           a <- _move self 0 (tuple_mul [i; j] (Z.of_nat k)) ;;
           Ok (f0 ++ [a]))
        (range m) [].

(** The [if]/[elif]/[else] of [get_faces]: the subgroup generators and the
    base face of type [(i, j)], or [None] where the source says [continue].
    The conditions are evaluated in the source's order, [and] skipping its
    right operand when the left one is false. *)
Definition face_setup (self : polytope) (i j : nat)
  : result (option (list word * list nat)) :=
  ai <- getitem (active self) i ;;
  both <- (if ai then getitem (active self) j else Ok false) ;;
  if both then
    m <- coxeter_entry self i j ;;
    f0 <- f0_both self i j m ;;
    Ok (Some ([[i; j]], f0))
  else
    ai' <- getitem (active self) i ;;
    c2 <- (if ai' then (m <- coxeter_entry self i j ;; Ok (2 <? m)%Z) else Ok false) ;;
    if c2 then
      m <- coxeter_entry self i j ;;
      f0 <- f0_one self i j m ;;
      Ok (Some ([[i; j]; [i]], f0))
    else
      aj <- getitem (active self) j ;;
      c3 <- (if aj then (m <- coxeter_entry self i j ;; Ok (2 <? m)%Z) else Ok false) ;;
      if c3 then
        m <- coxeter_entry self i j ;;
        f0 <- f0_one self i j m ;;
        Ok (Some ([[i; j]; [j]], f0))
      else Ok None.

(** The body of [for word in words] in [get_faces]. *)
Definition face_step (self : polytope) (f0 : list nat) (flist : list (list nat))
    (word : word) : result (list (list nat)) :=
  f <- mapM (fun v => _move self v word) f0 ;;
  if negb (check_duplicate_face f flist)
  then Ok (flist ++ [f])
  else Ok flist.

(** [tuple(self.vertex_coords[x] for x in face)] *)
Definition face_coord (self : polytope) (face : list nat) : result (list Vec) :=
  mapM (getitem (vertex_coords self)) face.

(** The body of [for i, j in combinations(self.symmetry_gens, 2)]. *)
Definition face_type_step (self : polytope) (ij : nat * nat) : result polytope :=
  setup <- face_setup self (fst ij) (snd ij) ;;
  match setup with
  | None => Ok self
  | Some (fgens, f0) =>
      ftable <- CosetTable_run (symmetry_gens self) (symmetry_rels self)
                               (Some fgens) None ;;
      flist <- foldM (face_step self f0) (ct_words ftable) [] ;;
      fcoords <- mapM (face_coord self) flist ;;
      Ok (append_faces self flist fcoords)
  end.

Definition get_faces (self : polytope) : result polytope :=
  self' <- foldM face_type_step (combinations2 (symmetry_gens self)) self ;;
  Ok (set_num_faces self' (total_length (face_indices self'))).

Definition build_geometry (self : polytope) : result polytope :=
  self1 <- get_vertices self ;;
  self2 <- get_edges self1 ;;
  get_faces self2.

(** [get_word_representations(self, symbol, cols, snub)]; a caller that
    leaves an argument out passes its default, [r"\rho"], [3], [False].
    The string returned is
    [r"\begin{{array}}{{{}}}{}\end{{array}}".format("l"*cols, latex)]. *)
Definition get_word_representations (self : polytope) (symbol : string) (cols : Z)
    (snub : bool) : repr_result :=
  match _vwords self with
  | None => ReprRaise AttributeError
  | Some ws =>
      match repr_loop symbol cols snub (enumerate ws) "" with
      | Repr latex =>
          Repr ("\begin{array}{" ++ str_mul "l" cols ++ "}" ++ latex
                ++ "\end{array}")%string
      | r => r
      end
  end.

End Methods.
End BasePolytope.

(** ** class Polyhedra *)

Module Polyhedra.
Section Methods.
Context {C : Collaborators}.

(** [if not len(upper_triangle) == len(init_dist) == 3: raise ValueError(...)] *)
Definition init (upper_triangle : list Z) (init_dist : list Dist)
  : result polytope :=
  if negb ((length upper_triangle =? length init_dist)
           && (length init_dist =? 3))
  then Raise (ValueError "Three integers and three floats are required")
  else BasePolytope.init upper_triangle init_dist.

End Methods.
End Polyhedra.

(** ** class Polychora *)

Module Polychora.
Section Methods.
Context {C : Collaborators}.

(** [if not len(upper_triangle) == 6 and len(init_dist) == 4: raise ...]:
    Python reads the condition as [(not (len(upper_triangle) == 6)) and
    (len(init_dist) == 4)]. *)
Definition init (upper_triangle : list Z) (init_dist : list Dist)
  : result polytope :=
  if negb (length upper_triangle =? 6) && (length init_dist =? 4)
  then Raise (ValueError "Six integers and four floats are required")
  else BasePolytope.init upper_triangle init_dist.

End Methods.
End Polychora.

(** ** class Snub *)

Module Snub.
Section Methods.
Context {C : Collaborators}.

(** A snub object: the attributes of a polytope and the dict [rotations],
    kept in insertion order. *)
Record snub : Type := {
  base : polytope;
  rotations : list (word * Z)
}.

(** [self.rotations[key]] *)
Fixpoint rotations_getitem (d : list (word * Z)) (key : word) : result Z :=
  match d with
  | [] => Raise KeyError
  | (k, v) :: d' => if list_eqb key k then Ok v else rotations_getitem d' key
  end.

(** [__init__(self, upper_triangle, init_dist)]; a caller that leaves
    [init_dist] out passes the default [(1.0, 1.0, 1.0)]. *)
Definition init (upper_triangle : list Z) (init_dist : list Dist) : result snub :=
  self <- Polyhedra.init upper_triangle init_dist ;;
  r0 <- coxeter_entry self 0 1 ;;
  r1 <- coxeter_entry self 1 2 ;;
  r2 <- coxeter_entry self 0 2 ;;
  let rels := [tuple_mul [0] r0; tuple_mul [2] r1; tuple_mul [0; 2] r2;
               [0; 1]; [2; 3]] in
  let self' := set_presentation self [0; 1; 2; 3] rels in
  d0 <- coxeter_entry self' 0 1 ;;
  d1 <- coxeter_entry self' 1 2 ;;
  d2 <- coxeter_entry self' 0 2 ;;
  Ok {| base := self';
        rotations := [([0], d0); ([2], d1); ([0; 2], d2)] |}.

(** [_transform(self, vertex, word)] *)
Fixpoint _transform (self : polytope) (vertex : Vec) (word : word) : result Vec :=
  match word with
  | [] => Ok vertex
  | g :: word' =>
      if g =? 0 then
        r0 <- getitem (_reflections self) 0 ;;
        r1 <- getitem (_reflections self) 1 ;;
        _transform self (dot (dot vertex r0) r1) word'
      else
        r1 <- getitem (_reflections self) 1 ;;
        r2 <- getitem (_reflections self) 2 ;;
        _transform self (dot (dot vertex r1) r2) word'
  end.

Definition with_base (s : snub) (p : polytope) : snub :=
  {| base := p; rotations := rotations s |}.

Definition get_vertices (s : snub) : result snub :=
  let self := base s in
  vtable <- CosetTable_run (symmetry_gens self) (symmetry_rels self)
                           None (Some false) ;;
  let vwords := ct_words vtable in
  coords <- mapM (_transform self (init_v self)) vwords ;;
  Ok (with_base s (set_vertices self vtable vwords (length vwords) coords)).

(** The body of [for word in self._vwords] in [get_edges]. *)
Definition edge_step (self : polytope) (e0 : nat * nat) (elist : list (nat * nat))
    (word : word) : result (list (nat * nat)) :=
  a <- _move self (fst e0) word ;;
  b <- _move self (snd e0) word ;;
  if negb (pair_in (a, b) elist) && negb (pair_in (b, a) elist)
  then Ok (elist ++ [(a, b)])
  else Ok elist.

(** The body of [for rot in self.rotations]. *)
Definition edge_type_step (self : polytope) (rot : word) : result polytope :=
  v <- _move self 0 rot ;;
  let e0 := (0, v) in
  vwords <- get_vwords self ;;
  elist <- foldM (edge_step self e0) vwords [] ;;
  ecoords <- mapM (BasePolytope.edge_coord self) elist ;;
  Ok (append_edges self elist ecoords).

Definition get_edges (s : snub) : result snub :=
  self' <- foldM edge_type_step (map fst (rotations s)) (base s) ;;
  Ok (with_base s (set_num_edges self' (total_length (edge_indices self')))).

(** The tuple [orbits] of [get_faces]. *)
Definition orbits (s : snub) : result (list (list nat)) :=
  let self := base s in
  p <- rotations_getitem (rotations s) [0] ;;
  o0 <- mapM (fun k => _move self 0 (tuple_mul [0] (Z.of_nat k))) (range p) ;;
  q <- rotations_getitem (rotations s) [2] ;;
  o1 <- mapM (fun k => _move self 0 (tuple_mul [2] (Z.of_nat k))) (range q) ;;
  a <- _move self 0 [2] ;;
  b <- _move self 0 [0; 2] ;;
  Ok [o0; o1; [0; a; b]].

(** The body of [for f0 in orbits]. *)
Definition face_type_step (self : polytope) (f0 : list nat) : result polytope :=
  vwords <- get_vwords self ;;
  flist <- foldM (BasePolytope.face_step self f0) vwords [] ;;
  fcoords <- mapM (BasePolytope.face_coord self) flist ;;
  Ok (append_faces self flist fcoords).

Definition get_faces (s : snub) : result snub :=
  os <- orbits s ;;
  self' <- foldM face_type_step os (base s) ;;
  Ok (with_base s (set_num_faces self' (total_length (face_indices self')))).

Definition build_geometry (s : snub) : result snub :=
  s1 <- get_vertices s ;;
  s2 <- get_edges s1 ;;
  get_faces s2.

End Methods.
End Snub.

(** ** A concrete set of collaborators, for running the model

    The linear algebra is symbolic: a point is the list of the reflections
    applied to the initial point so far, in order, so a coordinate shows how
    it was computed.  The coset enumeration covers the groups whose
    generators all commute (every entry of the Coxeter matrix is 2, as for
    the rectangular box (2, 2, 2)), where a group element is the set of the
    generators it is a product of; any other presentation is refused. *)

Module Box.

Inductive tvec : Type :=
| Normal (i : nat)
| Point (trace : list nat).

Definition tdot (v : tvec) (m : nat) : tvec :=
  match v with
  | Normal i => Normal i
  | Point tr => Point (tr ++ [m])
  end.

(** Modelled from the spec: [helpers.get_coxeter_matrix], a symmetric matrix
    with 1 on the diagonal, built from 3 or 6 upper-triangle entries. *)
Definition coxeter_matrix_of (ut : list Z) : result (list (list Z)) :=
  match ut with
  | [p; q; r] => Ok [[1; p; q]; [p; 1; r]; [q; r; 1]]%Z
  | [p; q; r; s; t; u] =>
      Ok [[1; p; q; r]; [p; 1; s; t]; [q; s; 1; u]; [r; t; u; 1]]%Z
  | _ => Raise (CollaboratorError "get_coxeter_matrix")
  end.

Definition mirrors_of (ut : list Z) : result (list tvec) :=
  match ut with
  | [_; _; _] => Ok [Normal 0; Normal 1; Normal 2]
  | [_; _; _; _; _; _] => Ok [Normal 0; Normal 1; Normal 2; Normal 3]
  | _ => Raise (CollaboratorError "get_mirrors")
  end.

Definition reflection_of (v : tvec) : result nat :=
  match v with
  | Normal i => Ok i
  | Point _ => Raise (CollaboratorError "reflection_matrix")
  end.

(** Group elements are bit masks; [free] is the mode [coxeter=False], in
    which the symbols [2k] and [2k+1] are a generator and its inverse. *)
Definition bit_of (free : bool) (g : nat) : nat :=
  if free then 2 ^ (g / 2) else 2 ^ g.

Definition symbol_of (free : bool) (b : nat) : nat :=
  if free then 2 * b else b.

Definition mask_of_word (free : bool) (w : word) : nat :=
  fold_left (fun acc g => Nat.lxor acc (bit_of free g)) w 0.

Definition span (hs : list nat) : list nat :=
  fold_left (fun H h => if existsb (Nat.eqb h) H then H
                        else H ++ map (Nat.lxor h) H) hs [0].

Definition popcount (n x : nat) : nat :=
  length (filter (Nat.testbit x) (seq 0 n)).

(** All masks on [n] bits, shortest products first. *)
Definition candidates (n : nat) : list nat :=
  concat (map (fun c => filter (fun x => popcount n x =? c) (seq 0 (2 ^ n)))
              (seq 0 (S n))).

Definition same_coset (H : list nat) (x y : nat) : bool :=
  existsb (Nat.eqb (Nat.lxor x y)) H.

Definition representatives (H : list nat) (n : nat) : list nat :=
  fold_left (fun rs x => if existsb (same_coset H x) rs then rs else rs ++ [x])
            (candidates n) [].

Fixpoint index_of (H : list nat) (rs : list nat) (x : nat) : nat :=
  match rs with
  | [] => 0
  | r :: rs' => if same_coset H x r then 0 else S (index_of H rs' x)
  end.

Definition commuting_relator (r : word) : bool :=
  match r with
  | [i; j; i'; j'] => (i =? i') && (j =? j') && negb (i =? j)
  | _ => false
  end.

Definition supported (free : bool) (rels : list word) : bool :=
  if free
  then match rels with
       | [[0; 0]; [2; 2]; [0; 2; 0; 2]; [0; 1]; [2; 3]] => true
       | _ => false
       end
  else forallb commuting_relator rels.

Definition enumerate_cosets (gens : list nat) (rels : list word)
    (subgens : option (list word)) (coxeter : option bool) : result coset_table :=
  let free := match coxeter with Some false => true | _ => false end in
  if supported free rels then
    let n := if free then length gens / 2 else length gens in
    let H := span (map (mask_of_word free)
                       (match subgens with Some l => l | None => [] end)) in
    let rs := representatives H n in
    Ok {| ct_table :=
            map (fun x => map (fun g => index_of H rs (Nat.lxor x (bit_of free g)))
                              gens) rs;
          ct_words :=
            map (fun x => map (symbol_of free) (filter (Nat.testbit x) (seq 0 n)))
                rs |}
  else Raise (CollaboratorError "enumeration does not close").

#[export] Instance collaborators : Collaborators := {|
  Dist := Z;
  Vec := tvec;
  Mat := nat;
  truth := fun x => negb (x =? 0)%Z;
  dot := tdot;
  get_coxeter_matrix := coxeter_matrix_of;
  get_mirrors := mirrors_of;
  reflection_matrix := reflection_of;
  get_init_point := fun _ _ => Ok (Point []);
  CosetTable_run := enumerate_cosets
|}.

(** An object with no attribute set, and the value of a call that is known
    to return. *)
Definition blank : polytope :=
  {| coxeter_matrix := []; _mirrors := []; _reflections := [];
     init_v := Point []; active := [];
     symmetry_gens := []; symmetry_rels := [];
     _vtable := None; _vwords := None;
     num_vertices := None; vertex_coords := [];
     num_edges := None; edge_indices := []; edge_coords := [];
     num_faces := None; face_indices := []; face_coords := [] |}.

Definition returned (r : result polytope) : polytope :=
  match r with
  | Ok self => self
  | Raise _ => blank
  end.

(** The box whose initial vertex lies on the second mirror only, as the
    constructor leaves it and after each stage. *)
Definition slab0 : polytope := returned (Polyhedra.init [2; 2; 2]%Z [1; 0; 1]%Z).
Definition slab1 : polytope := returned (BasePolytope.get_vertices slab0).
Definition slab2 : polytope := returned (BasePolytope.get_edges slab1).
Definition slab3 : polytope := returned (BasePolytope.get_faces slab2).

(** The snub of the box, as its constructor leaves it. *)
Definition snub0 : Snub.snub :=
  match Snub.init [2; 2; 2]%Z [1; 1; 1]%Z with
  | Ok s => s
  | Raise _ => {| Snub.base := blank; Snub.rotations := [] |}
  end.

Definition snub_returned (r : result Snub.snub) : Snub.snub :=
  match r with
  | Ok s => s
  | Raise _ => {| Snub.base := blank; Snub.rotations := [] |}
  end.

(** The snub of the box after each stage. *)
Definition snub1 : Snub.snub := snub_returned (Snub.get_vertices snub0).
Definition snub2 : Snub.snub := snub_returned (Snub.get_edges snub1).
Definition snub3 : Snub.snub := snub_returned (Snub.get_faces snub2).

(** The box with all three mirrors active, and its snub. *)
Definition box : result polytope :=
  self <- Polyhedra.init [2; 2; 2]%Z [1; 1; 1]%Z ;;
  BasePolytope.build_geometry self.

Definition snub_box : result Snub.snub :=
  s <- Snub.init [2; 2; 2]%Z [1; 1; 1]%Z ;;
  Snub.build_geometry s.

End Box.

(** ** A second set of collaborators: groups given by permutations

    The coset enumeration is done in a permutation representation of the
    group: the tetrahedral group (3, 2, 3) as the symmetric group on four
    points, the octahedral group (4, 2, 3) as the signed permutations of
    three axes.  Any other presentation is refused.  The linear algebra is
    the symbolic one of [Box]. *)

Module Solid.

(** A permutation of [0 .. n-1] as the list of its images. *)
Definition perm := list nat.

Definition image (p : perm) (x : nat) : nat := nth x p x.

(** First [p], then [q]. *)
Definition compose (p q : perm) : perm := map (image q) p.

Definition perm_eqb (p q : perm) : bool := list_eqb p q.

Definition identity (n : nat) : perm := seq 0 n.

(** The permutation of a word in the generators [gs]. *)
Definition perm_of_word (n : nat) (gs : list perm) (w : word) : perm :=
  fold_left (fun acc g => compose acc (nth g gs (identity n))) w (identity n).

Definition seen_in (p : perm) (l : list (perm * word)) : bool :=
  existsb (fun q => perm_eqb p (fst q)) l.

(** The elements one symbol of [syms] away from [frontier] that are not
    among [seen], each with the word that reaches it. *)
Definition extend (gs : list perm) (syms : list nat)
    (seen frontier : list (perm * word)) : list (perm * word) :=
  fold_left
    (fun acc pw =>
       fold_left
         (fun acc' g =>
            let q := compose (fst pw) (nth g gs []) in
            if seen_in q seen || seen_in q acc' then acc'
            else acc' ++ [(q, snd pw ++ [g])])
         syms acc)
    frontier [].

(** All elements reached from [seen] by words in the symbols [syms],
    shortest words first. *)
Fixpoint elements (fuel : nat) (gs : list perm) (syms : list nat)
    (seen frontier : list (perm * word)) : list (perm * word) :=
  match fuel with
  | O => seen
  | S fuel' =>
      match extend gs syms seen frontier with
      | [] => seen
      | next => elements fuel' gs syms (seen ++ next) next
      end
  end.

(** The group generated by [gs], each element with a shortest word in the
    symbols [syms]. *)
Definition group (n : nat) (gs : list perm) (syms : list nat) : list (perm * word) :=
  elements 64 gs syms [(identity n, [])] [(identity n, [])].

(** [g] and [r] lie in the same coset [H g = H r]. *)
Definition same_coset (H : list (perm * word)) (g r : perm) : bool :=
  existsb (fun h => perm_eqb (compose (fst h) r) g) H.

Definition representatives (H G : list (perm * word)) : list (perm * word) :=
  fold_left (fun rs g => if existsb (fun r => same_coset H (fst g) (fst r)) rs
                         then rs else rs ++ [g]) G [].

Fixpoint index_of (H : list (perm * word)) (rs : list (perm * word)) (g : perm) : nat :=
  match rs with
  | [] => 0
  | r :: rs' => if same_coset H g (fst r) then 0 else S (index_of H rs' g)
  end.

(** The permutations of the three reflections of the tetrahedral group and
    of the octahedral group. *)
Definition tetrahedral : list perm :=
  [[1; 0; 2; 3]; [0; 2; 1; 3]; [0; 1; 3; 2]].

Definition octahedral : list perm :=
  [[3; 1; 2; 0; 4; 5]; [1; 0; 2; 4; 3; 5]; [0; 2; 1; 3; 5; 4]].

(** The rotations [r], its inverse, [s] and its inverse, from the three
    reflections. *)
Definition rotations_of_reflections (gs : list perm) : list perm :=
  match gs with
  | [g0; g1; g2] => [compose g0 g1; compose g1 g0; compose g1 g2; compose g2 g1]
  | _ => []
  end.

(** The number of points and the permutations of the generators, for the
    presentations covered; [free] is the mode [coxeter=False]. *)
Definition representation (free : bool) (rels : list word) : option (nat * list perm) :=
  let key := concat (map (fun r => r ++ [9]) rels) in
  if free then
    if list_eqb key [0; 0; 0; 9; 2; 2; 2; 9; 0; 2; 0; 2; 9; 0; 1; 9; 2; 3; 9]
    then Some (4, rotations_of_reflections tetrahedral)
    else if list_eqb key [0; 0; 0; 0; 9; 2; 2; 2; 9; 0; 2; 0; 2; 9; 0; 1; 9; 2; 3; 9]
    then Some (6, rotations_of_reflections octahedral)
    else None
  else
    if list_eqb key [0; 1; 0; 1; 0; 1; 9; 0; 2; 0; 2; 9; 1; 2; 1; 2; 1; 2; 9]
    then Some (4, tetrahedral)
    else if list_eqb key [0; 1; 0; 1; 0; 1; 0; 1; 9; 0; 2; 0; 2; 9; 1; 2; 1; 2; 1; 2; 9]
    then Some (6, octahedral)
    else None.

Definition enumerate_cosets (gens : list nat) (rels : list word)
    (subgens : option (list word)) (coxeter : option bool) : result coset_table :=
  let free := match coxeter with Some false => true | _ => false end in
  match representation free rels with
  | Some (n, gs) =>
      let hs := map (perm_of_word n gs)
                    (match subgens with Some l => l | None => [] end) in
      let H := group n hs (seq 0 (length hs)) in
      (* in the mode [coxeter=False] the words use the symbols 0 and 2 only *)
      let syms := if free then [0; 2] else seq 0 (length gs) in
      let rs := representatives H (group n gs syms) in
      Ok {| ct_table :=
              map (fun r => map (fun g => index_of H rs (compose (fst r) (nth g gs [])))
                                gens) rs;
            ct_words := map snd rs |}
  | None => Raise (CollaboratorError "enumeration does not close")
  end.

#[export] Instance collaborators : Collaborators := {|
  Dist := Z;
  Vec := Box.tvec;
  Mat := nat;
  truth := fun x => negb (x =? 0)%Z;
  dot := Box.tdot;
  get_coxeter_matrix := Box.coxeter_matrix_of;
  get_mirrors := Box.mirrors_of;
  reflection_matrix := Box.reflection_of;
  get_init_point := fun _ _ => Ok (Box.Point []);
  CosetTable_run := enumerate_cosets
|}.

(** [Polyhedra(upper_triangle, init_dist).build_geometry()] *)
Definition build (upper_triangle init_dist : list Z) : result polytope :=
  self <- Polyhedra.init upper_triangle init_dist ;;
  BasePolytope.build_geometry self.

(** [Snub(upper_triangle, init_dist).build_geometry()] *)
Definition build_snub (upper_triangle init_dist : list Z) : result polytope :=
  s <- Snub.init upper_triangle init_dist ;;
  s' <- Snub.build_geometry s ;;
  Ok (Snub.base s').

(** The tetrahedron as the constructor leaves it and after each stage. *)
Definition returned (r : result polytope) : polytope :=
  match r with
  | Ok self => self
  | Raise _ =>
      {| coxeter_matrix := []; _mirrors := []; _reflections := [];
         init_v := Box.Point []; active := [];
         symmetry_gens := []; symmetry_rels := [];
         _vtable := None; _vwords := None;
         num_vertices := None; vertex_coords := [];
         num_edges := None; edge_indices := []; edge_coords := [];
         num_faces := None; face_indices := []; face_coords := [] |}
  end.

Definition tetra0 : polytope := returned (Polyhedra.init [3; 2; 3]%Z [1; 0; 0]%Z).
Definition tetra1 : polytope := returned (BasePolytope.get_vertices tetra0).
Definition tetra2 : polytope := returned (BasePolytope.get_edges tetra1).
Definition tetra3 : polytope := returned (BasePolytope.get_faces tetra2).

End Solid.

Section Census.
Context {C : Collaborators}.

(** The numbers of vertices, edges and faces, and the sizes of the faces. *)
Definition census (r : result polytope)
  : option (option nat * option nat * option nat * list (list nat)) :=
  match r with
  | Ok self =>
      Some (num_vertices self, num_edges self, num_faces self,
            map (map (@length nat)) (face_indices self))
  | Raise _ => None
  end.

End Census.

(** ** Vocabulary of the properties *)

(** The mirrors the initial vertex does not lie on, in increasing order. *)
Definition active_indices (act : list bool) : list nat :=
  filter (fun i => nth i act false) (seq 0 (length act)).

(** The mirrors the initial vertex lies on, in increasing order. *)
Definition inactive_indices (act : list bool) : list nat :=
  filter (fun i => negb (nth i act true)) (seq 0 (length act)).

(** Two edges that are the same undirected pair. *)
Definition same_edge (e1 e2 : nat * nat) : Prop :=
  e1 = e2 \/ e1 = (snd e2, fst e2).

(** No two entries of the list are the same undirected pair. *)
Definition undirected_unique (l : list (nat * nat)) : Prop :=
  forall a b e1 e2, a < b ->
    nth_error l a = Some e1 -> nth_error l b = Some e2 -> ~ same_edge e1 e2.

(** Equality of cycles up to cyclic rotation and reversal: the equivalence
    generated by rotating one step and by reversing. *)
Inductive same_cycle : list nat -> list nat -> Prop :=
| same_cycle_refl f : same_cycle f f
| same_cycle_rot x f : same_cycle (x :: f) (f ++ [x])
| same_cycle_rev f : same_cycle f (rev f)
| same_cycle_sym f g : same_cycle f g -> same_cycle g f
| same_cycle_trans f g h : same_cycle f g -> same_cycle g h -> same_cycle f h.

(** [g] is [f] rotated some number of steps, or [f] reversed and rotated. *)
Definition variant_of (f g : list nat) : Prop :=
  exists k, g = Nat.iter k rot1 f \/ g = Nat.iter k rot1 (rev f).

(** No two entries of the list are the same cycle. *)
Definition cycle_unique (l : list (list nat)) : Prop :=
  forall a b f g, a < b ->
    nth_error l a = Some f -> nth_error l b = Some g -> ~ same_cycle f g.

(** The words [(i, j) * k] for [k = 0 .. m-1]. *)
Definition rotation_words (i j : nat) (m : Z) : list word :=
  map (fun k => tuple_mul [i; j] (Z.of_nat k)) (range m).

(** The words [(i, j) * k] and [(j,) + (i, j) * k], alternating, for
    [k = 0 .. m-1]. *)
Definition alternating_words (i j : nat) (m : Z) : list word :=
  flat_map (fun k => [tuple_mul [i; j] (Z.of_nat k);
                      j :: tuple_mul [i; j] (Z.of_nat k)]) (range m).

(** One cell of the array of words: the row break before the word when
    its index is a positive multiple of [cols], the word, and the column
    separator after it unless its index is [cols - 1] modulo [cols]. *)
Definition latex_cell (symbol : string) (cols : Z) (snub : bool) (iw : nat * word)
  : string :=
  let break := (0 <? fst iw) && (Z.of_nat (fst iw) mod cols =? 0)%Z in
  let last := (Z.of_nat (fst iw) mod cols =? cols - 1)%Z in
  ((if break then "\\" else "")
   ++ to_latex symbol snub (snd iw)
   ++ (if last then "" else "&"))%string.

Section Vocabulary.
Context {C : Collaborators}.

(** Every letter of every word names a reflection of the object. *)
Definition words_in_range (self : polytope) (ws : list word) : Prop :=
  Forall (Forall (fun g => g < length (_reflections self))) ws.

(** [c] is [v] multiplied on the right by the reflections that the letters
    of [w] name, one after the other in the order of the word. *)
Definition applied_left_to_right (self : polytope) (v : Vec) (w : word) (c : Vec)
  : Prop :=
  exists ms : list Mat,
    Forall2 (fun g m => nth_error (_reflections self) g = Some m) w ms /\
    c = fold_left dot ms v.

(** The edges of type [i] that the words [ws] give: each one joins the
    images of vertex 0 under a word and under [(i,)] followed by it, and
    every word's edge is present in one direction or the other. *)
Definition edges_of_type (self : polytope) (i : nat) (ws : list word)
    (elist : list (nat * nat)) : Prop :=
  (forall v1 v2, In (v1, v2) elist ->
     exists w, In w ws /\ _move self 0 w = Ok v1 /\ _move self 0 (i :: w) = Ok v2) /\
  (forall w, In w ws ->
     exists v1 v2, _move self 0 w = Ok v1 /\ _move self 0 (i :: w) = Ok v2 /\
                   (In (v1, v2) elist \/ In (v2, v1) elist)).

(** Following the action table from the coset [v] along a word: each
    letter in turn, from the first to the last, replaces the coset by the
    entry of its row in the column of the letter.  The empty word leaves
    the coset where it is; a letter needs the table, the row and the
    entry to exist. *)
Inductive table_path (vt : option coset_table) : nat -> word -> nat -> Prop :=
| table_path_nil (v : nat) : table_path vt v [] v
| table_path_cons (t : coset_table) (v g : nat) (row : list nat) (v' : nat)
    (w : word) (v'' : nat) :
    vt = Some t ->
    nth_error (ct_table t) v = Some row ->
    nth_error row g = Some v' ->
    table_path vt v' w v'' ->
    table_path vt v (g :: w) v''.

(** The edges of type [i] that the words [ws] give on the action table:
    each one joins the cosets reached from coset 0 along a word and along
    [(i,)] followed by it, and every word's edge is present in one
    direction or the other. *)
Definition edges_on_table (vt : option coset_table) (i : nat) (ws : list word)
    (elist : list (nat * nat)) : Prop :=
  (forall v1 v2, In (v1, v2) elist ->
     exists w, In w ws /\ table_path vt 0 w v1 /\ table_path vt 0 (i :: w) v2) /\
  (forall w, In w ws ->
     exists v1 v2, table_path vt 0 w v1 /\ table_path vt 0 (i :: w) v2 /\
                   (In (v1, v2) elist \/ In (v2, v1) elist)).

(** Coordinates read from the vertex coordinate list at an edge's ends. *)
Definition coords_of_edge (self : polytope) (e : nat * nat) (c : Vec * Vec) : Prop :=
  nth_error (vertex_coords self) (fst e) = Some (fst c) /\
  nth_error (vertex_coords self) (snd e) = Some (snd c).

(** The faces that the words [ws] give from the base face [f0]: each one is
    [f0] moved by a word, and every word's face is, up to rotation and
    reversal, among them. *)
Definition faces_of_base (self : polytope) (f0 : list nat) (ws : list word)
    (flist : list (list nat)) : Prop :=
  (forall f, In f flist ->
     exists w, In w ws /\ mapM (fun v => _move self v w) f0 = Ok f) /\
  (forall w, In w ws ->
     exists f g, mapM (fun v => _move self v w) f0 = Ok f /\
                 In g flist /\ same_cycle f g).

(** What the edge and face stages read and leave as it is. *)
Definition base_of (self : polytope) :=
  (_vtable self, _vwords self, vertex_coords self, active self,
   coxeter_matrix self, symmetry_gens self, symmetry_rels self).

(** One edge type as [get_edges] builds it on the object [self]. *)
Definition edge_type_built (self : polytope) (i : nat)
    (ec : list (nat * nat) * list (Vec * Vec)) : Prop :=
  exists t,
    CosetTable_run (symmetry_gens self) (symmetry_rels self) (Some [[i]]) None = Ok t /\
    foldM (BasePolytope.edge_step self i) (ct_words t) [] = Ok (fst ec) /\
    mapM (BasePolytope.edge_coord self) (fst ec) = Ok (snd ec).

(** The edges that the words [ws] give from the base edge [(0, v)]: each
    one joins the images of 0 and of [v] under a word, and every word's edge
    is present in one direction or the other. *)
Definition edges_of_base (self : polytope) (v : nat) (ws : list word)
    (elist : list (nat * nat)) : Prop :=
  (forall a b, In (a, b) elist ->
     exists w, In w ws /\ _move self 0 w = Ok a /\ _move self v w = Ok b) /\
  (forall w, In w ws ->
     exists a b, _move self 0 w = Ok a /\ _move self v w = Ok b /\
                 (In (a, b) elist \/ In (b, a) elist)).

(** Everything but the edge attributes, and everything but the face
    attributes. *)
Definition edge_frame (self : polytope) :=
  (coxeter_matrix self, _mirrors self, _reflections self, init_v self,
   active self, symmetry_gens self, symmetry_rels self,
   _vtable self, _vwords self, num_vertices self, vertex_coords self,
   num_faces self, face_indices self, face_coords self).

Definition face_frame (self : polytope) :=
  (coxeter_matrix self, _mirrors self, _reflections self, init_v self,
   active self, symmetry_gens self, symmetry_rels self,
   _vtable self, _vwords self, num_vertices self, vertex_coords self,
   num_edges self, edge_indices self, edge_coords self).

(** The indices of the edges and the faces are indices of the [n] vertex
    coordinates, and each edge type and each face type has its list of
    coordinates. *)
Definition indices_name_vertices (self : polytope) (n : nat) : Prop :=
  length (vertex_coords self) = n /\
  (forall elist e, In elist (edge_indices self) -> In e elist ->
                   fst e < n /\ snd e < n) /\
  (forall flist f x, In flist (face_indices self) -> In f flist -> In x f ->
                     x < n) /\
  length (edge_coords self) = length (edge_indices self) /\
  length (face_coords self) = length (face_indices self).

(** The mirror pairs for which [get_faces] builds a face type. *)
Definition has_face (self : polytope) (ij : nat * nat) : bool :=
  match BasePolytope.face_setup self (fst ij) (snd ij) with
  | Ok (Some _) => true
  | _ => false
  end.

(** One face type as [get_faces] builds it on the object [self]. *)
Definition face_type_built (self : polytope) (ij : nat * nat)
    (fc : list (list nat) * list (list Vec)) : Prop :=
  exists fgens f0 t,
    BasePolytope.face_setup self (fst ij) (snd ij) = Ok (Some (fgens, f0)) /\
    CosetTable_run (symmetry_gens self) (symmetry_rels self) (Some fgens) None = Ok t /\
    foldM (BasePolytope.face_step self f0) (ct_words t) [] = Ok (fst fc) /\
    mapM (BasePolytope.face_coord self) (fst fc) = Ok (snd fc).

End Vocabulary.

(** * Properties *)

(** ** The error monad and the loops *)

Lemma getitem_Ok {A : Type} (l : list A) (i : nat) (a : A) :
  getitem l i = Ok a <-> nth_error l i = Some a.
Proof.
  unfold getitem. destruct (nth_error l i); split; intros H;
    try discriminate; congruence.
Qed.

Lemma mapM_Forall2 {A B : Type} (f : A -> result B) (l : list A) (ys : list B) :
  mapM f l = Ok ys <-> Forall2 (fun x y => f x = Ok y) l ys.
Proof.
  revert ys. induction l as [|x l IH]; intros ys; simpl.
  - split; intros H.
    + injection H as <-. constructor.
    + inversion H. reflexivity.
  - split; intros H.
    + inv_bind H. inv_bind H. injection H as <-.
      constructor; [assumption | now apply IH].
    + inversion H as [|? y ? ys' Hx Hl]; subst.
      rewrite Hx. simpl. apply IH in Hl. rewrite Hl. reflexivity.
Qed.

Lemma mapM_length {A B : Type} (f : A -> result B) (l : list A) (ys : list B) :
  mapM f l = Ok ys -> length ys = length l.
Proof.
  intros H. apply mapM_Forall2 in H. symmetry. eapply Forall2_length; eassumption.
Qed.

Lemma mapM_total {A B : Type} (f : A -> result B) (l : list A) :
  Forall (fun x => exists y, f x = Ok y) l -> exists ys, mapM f l = Ok ys.
Proof.
  induction 1 as [|x l [y Hy] _ [ys IH]]; simpl.
  - eauto.
  - rewrite Hy, IH. simpl. eauto.
Qed.

(** A property that the loop body preserves holds when the loop ends. *)
Lemma foldM_invariant {A S : Type} (P : S -> Prop) (body : S -> A -> result S)
    (l : list A) :
  (forall acc x acc', In x l -> P acc -> body acc x = Ok acc' -> P acc') ->
  forall acc r, P acc -> foldM body l acc = Ok r -> P r.
Proof.
  induction l as [|x l IH]; intros Hstep acc r Hacc H; simpl in H.
  - injection H as <-. assumption.
  - inv_bind H. apply IH with (acc := x0).
    + intros; eapply Hstep; eauto. now right.
    + eapply Hstep; eauto. now left.
    + assumption.
Qed.

(** ** Vertices *)

Section VertexProperties.
Context {C : Collaborators}.

Lemma transform_total (self : polytope) (w : word) (v : Vec) :
  Forall (fun g => g < length (_reflections self)) w ->
  exists c, BasePolytope._transform self v w = Ok c.
Proof.
  intros Hw. revert v. induction Hw as [|g w Hg _ IH]; intros v; simpl.
  - eauto.
  - apply nth_error_Some in Hg. unfold getitem.
    destruct (nth_error (_reflections self) g) as [r|]; [| congruence].
    simpl. apply IH.
Qed.

Lemma transform_applied (self : polytope) (w : word) (v c : Vec) :
  BasePolytope._transform self v w = Ok c <-> applied_left_to_right self v w c.
Proof.
  unfold applied_left_to_right. revert v. induction w as [|g w IH]; intros v; simpl.
  - split.
    + intros H. injection H as <-. exists []. split; [constructor | reflexivity].
    + intros [ms [Hms ->]]. inversion Hms. reflexivity.
  - split.
    + intros H. inv_bind H. apply getitem_Ok in E. apply IH in H.
      destruct H as [ms [Hms ->]]. exists (x :: ms). split.
      * constructor; assumption.
      * reflexivity.
    + intros [ms [Hms ->]]. inversion Hms as [|? m ? ms' Hg Hrest]; subst.
      apply getitem_Ok in Hg. rewrite Hg. simpl. apply IH. eauto.
Qed.

Lemma combine_seq_In {A : Type} (l : list A) (s i : nat) (a : A) :
  In (i, a) (combine (seq s (length l)) l) <->
  s <= i /\ nth_error l (i - s) = Some a.
Proof.
  revert s. induction l as [|x l IH]; intros s; simpl.
  - split; [tauto |]. intros [_ H]. destruct (i - s); discriminate.
  - rewrite IH. split.
    + intros [H | [Hle H]].
      * injection H as -> ->. rewrite Nat.sub_diag. simpl. auto.
      * split; [lia |]. replace (i - s) with (S (i - S s)) by lia. assumption.
    + intros [Hle H]. destruct (Nat.eq_dec s i) as [-> | Hne].
      * rewrite Nat.sub_diag in H. simpl in H. injection H as ->. now left.
      * right. split; [lia |].
        replace (i - s) with (S (i - S s)) in H by lia. assumption.
Qed.

Lemma enumerate_In {A : Type} (l : list A) (i : nat) (a : A) :
  In (i, a) (enumerate l) <-> nth_error l i = Some a.
Proof.
  unfold enumerate. rewrite combine_seq_In, Nat.sub_0_r.
  split; [tauto | intros; split; [lia | assumption]].
Qed.

Lemma filter_enumerate {A : Type} (p : A -> bool) (d : A) (l : list A) (s : nat) :
  map fst (filter (fun ia : nat * A => p (snd ia)) (combine (seq s (length l)) l)) =
  filter (fun i => p (nth (i - s) l d)) (seq s (length l)).
Proof.
  revert s. induction l as [|x l IH]; intros s.
  - reflexivity.
  - assert (E : filter (fun i => p (nth (i - s) (x :: l) d)) (seq (S s) (length l)) =
                filter (fun i => p (nth (i - S s) l d)) (seq (S s) (length l))).
    { apply filter_ext_in. intros i Hi. apply in_seq in Hi.
      replace (i - s) with (S (i - S s)) by lia. reflexivity. }
    change (seq s (length (x :: l))) with ([s] ++ seq (S s) (length l)).
    rewrite filter_app, E, <- IH.
    cbn [app combine filter snd]. rewrite Nat.sub_diag. cbn [nth].
    destruct (p x); reflexivity.
Qed.

Lemma vgens_inactive (self : polytope) :
  BasePolytope.vgens self = map (fun i => [i]) (inactive_indices (active self)).
Proof.
  unfold BasePolytope.vgens, inactive_indices, enumerate.
  rewrite <- (map_map fst (fun i => [i])).
  rewrite (filter_enumerate negb true).
  f_equal. apply filter_ext. intros i. now rewrite Nat.sub_0_r.
Qed.

Lemma vgens_In (self : polytope) (g : word) :
  In g (BasePolytope.vgens self) <->
  exists i, g = [i] /\ nth_error (active self) i = Some false.
Proof.
  unfold BasePolytope.vgens. rewrite in_map_iff. split.
  - intros [[i a] [<- H]]. apply filter_In in H. destruct H as [H Ha].
    apply enumerate_In in H. simpl in *. destruct a; [discriminate | eauto].
  - intros [i [-> H]]. exists (i, false). split; [reflexivity |].
    apply filter_In. split; [now apply enumerate_In | reflexivity].
Qed.

Lemma get_vertices_Ok (self self' : polytope) :
  BasePolytope.get_vertices self = Ok self' ->
  exists t coords,
    CosetTable_run (symmetry_gens self) (symmetry_rels self)
                   (Some (BasePolytope.vgens self)) None = Ok t /\
    mapM (BasePolytope._transform self (init_v self)) (ct_words t) = Ok coords /\
    self' = set_vertices self t (ct_words t) (length (ct_words t)) coords.
Proof.
  unfold BasePolytope.get_vertices. intros H.
  inv_bind H. inv_bind H. injection H as <-. eauto.
Qed.

(** C1: when the enumeration modulo the vertex stabilizer returns and its
    words name reflections of the object, the vertex stage returns; and
    whenever the vertex stage returns, [num_vertices] is the number of words
    the enumeration returned and [vertex_coords] holds, position by
    position, one coordinate per word: nothing is merged or dropped. *)
Theorem C1_num_vertices_is_coset_count (self : polytope) :
  (forall t,
     CosetTable_run (symmetry_gens self) (symmetry_rels self)
                    (Some (BasePolytope.vgens self)) None = Ok t ->
     words_in_range self (ct_words t) ->
     exists self', BasePolytope.get_vertices self = Ok self') /\
  (forall self',
     BasePolytope.get_vertices self = Ok self' ->
     exists t,
       CosetTable_run (symmetry_gens self) (symmetry_rels self)
                      (Some (BasePolytope.vgens self)) None = Ok t /\
       num_vertices self' = Some (length (ct_words t)) /\
       length (vertex_coords self') = length (ct_words t) /\
       Forall2 (fun w c => BasePolytope._transform self (init_v self) w = Ok c)
               (ct_words t) (vertex_coords self')).
Proof.
  split.
  - intros t Hrun Hws. unfold BasePolytope.get_vertices. rewrite Hrun. simpl.
    destruct (mapM_total (BasePolytope._transform self (init_v self)) (ct_words t))
      as [coords Hc].
    + eapply Forall_impl; [| exact Hws]. intros w Hw. now apply transform_total.
    + rewrite Hc. simpl. eauto.
  - intros self' H. apply get_vertices_Ok in H.
    destruct H as [t [coords [Hrun [Hc ->]]]]. exists t. simpl.
    repeat split; try assumption.
    + now apply mapM_length in Hc.
    + now apply mapM_Forall2.
Qed.

(** C2: after the vertex stage, the coordinate of each coset is the
    initial point multiplied on the right by the reflections its word
    names, in the order of the word; and the subgroup given to the
    enumeration is generated by the words [(i,)] of the mirrors [i] whose
    active flag is false, and by nothing else. *)
Theorem C2_vertex_coordinates (self self' : polytope) :
  BasePolytope.get_vertices self = Ok self' ->
  exists t,
    CosetTable_run (symmetry_gens self) (symmetry_rels self)
                   (Some (BasePolytope.vgens self)) None = Ok t /\
    BasePolytope.vgens self = map (fun i => [i]) (inactive_indices (active self)) /\
    (forall g, In g (BasePolytope.vgens self) <->
               exists i, g = [i] /\ nth_error (active self) i = Some false) /\
    _vwords self' = Some (ct_words t) /\
    Forall2 (applied_left_to_right self (init_v self))
            (ct_words t) (vertex_coords self').
Proof.
  intros H. apply get_vertices_Ok in H.
  destruct H as [t [coords [Hrun [Hc ->]]]]. exists t. simpl.
  split; [assumption |]. split; [apply vgens_inactive |].
  split; [apply vgens_In |]. split; [reflexivity |].
  apply mapM_Forall2 in Hc. eapply Forall2_impl; [| exact Hc].
  intros w c Hwc. now apply transform_applied.
Qed.

End VertexProperties.

(** C1 on the box whose initial vertex lies on the second mirror. *)
Lemma C1_box_vertices :
  (exists self', BasePolytope.get_vertices Box.slab0 = Ok self') /\
  num_vertices Box.slab1 = Some 4 /\ length (vertex_coords Box.slab1) = 4.
Proof.
  destruct (C1_num_vertices_is_coset_count Box.slab0) as [Hreturns Hcount].
  split.
  - apply (Hreturns {| ct_table := [[1; 0; 2]; [0; 1; 3]; [3; 2; 0]; [2; 3; 1]];
                       ct_words := [[]; [0]; [2]; [0; 2]] |}).
    + reflexivity.
    + repeat constructor.
  - destruct (Hcount Box.slab1 eq_refl) as [t [Ht [Hn [Hlen _]]]].
    vm_compute in Ht. injection Ht as <-. split; assumption.
Defined.

(** C2 on the same box: the subgroup is generated by [(1,)]. *)
Lemma C2_box_coordinates :
  exists t,
    @CosetTable_run Box.collaborators
                   (symmetry_gens Box.slab0) (symmetry_rels Box.slab0)
                   (Some [[1]]) None = Ok t /\
    Forall2 (applied_left_to_right Box.slab0 (Box.Point []))
            (ct_words t) [Box.Point []; Box.Point [0]; Box.Point [2]; Box.Point [0; 2]].
Proof.
  destruct (C2_vertex_coordinates Box.slab0 Box.slab1 eq_refl)
    as [t [Ht [_ [_ [_ Hc]]]]].
  exists t. split; assumption.
Defined.

(** ** Moving a vertex index *)

Section MoveProperties.
Context {C : Collaborators}.

(** [_move] reads the action table of the vertex stage and nothing else. *)
Lemma _move_ext (s1 s2 : polytope) (v : nat) (w : word) :
  _vtable s1 = _vtable s2 -> _move s1 v w = _move s2 v w.
Proof.
  intros E. revert v. induction w as [|g w IH]; intros v; simpl.
  - reflexivity.
  - unfold vtable_lookup. rewrite E.
    destruct (_vtable s2) as [t|]; simpl; [| reflexivity].
    destruct (getitem (ct_table t) v) as [row|]; simpl; [| reflexivity].
    destruct (getitem row g); simpl; [apply IH | reflexivity].
Qed.

(** X3: moving by a concatenation is moving by its parts, one after the
    other. *)
Lemma _move_app (self : polytope) (v : nat) (w1 w2 : word) :
  _move self v (w1 ++ w2) = (v' <- _move self v w1 ;; _move self v' w2).
Proof.
  revert v. induction w1 as [|g w1 IH]; intros v; simpl.
  - reflexivity.
  - destruct (vtable_lookup self v g); simpl; [apply IH | reflexivity].
Qed.

(** [_move] returns a coset exactly when the word can be followed on the
    action table of the vertex stage, and then it returns the coset the
    path ends in. *)
Lemma _move_table_path (self : polytope) (v : nat) (w : word) (v' : nat) :
  _move self v w = Ok v' <-> table_path (_vtable self) v w v'.
Proof.
  revert v. induction w as [|g w IH]; intros v; simpl.
  - split.
    + intros H. injection H as <-. constructor.
    + intros H. inversion H; subst. reflexivity.
  - unfold vtable_lookup. split.
    + intros H. destruct (_vtable self) as [t|] eqn:Et; [| discriminate].
      inv_bind H. inv_bind E. apply getitem_Ok in E, E0.
      apply IH in H. now apply (table_path_cons _ t v g x0 x).
    + intros H. inversion H as [| t ? ? row u ? ? Et Hrow Hu Hrest]; subst.
      rewrite Et. apply getitem_Ok in Hrow, Hu. rewrite Hrow. cbn [bind].
      rewrite Hu. cbn [bind]. apply IH. exact Hrest.
Qed.

Lemma edges_of_type_on_table (self : polytope) (i : nat) (ws : list word)
    (elist : list (nat * nat)) :
  edges_of_type self i ws elist <-> edges_on_table (_vtable self) i ws elist.
Proof.
  unfold edges_of_type, edges_on_table. split; intros [H1 H2]; split.
  - intros v1 v2 Hin. destruct (H1 v1 v2 Hin) as [w [Hw [Ha Hb]]].
    exists w. split; [assumption |]. split; now apply _move_table_path.
  - intros w Hw. destruct (H2 w Hw) as [v1 [v2 [Ha [Hb Hin]]]].
    exists v1, v2. split; [| split; [| assumption]]; now apply _move_table_path.
  - intros v1 v2 Hin. destruct (H1 v1 v2 Hin) as [w [Hw [Ha Hb]]].
    exists w. split; [assumption |]. split; now apply _move_table_path.
  - intros w Hw. destruct (H2 w Hw) as [v1 [v2 [Ha [Hb Hin]]]].
    exists v1, v2. split; [| split; [| assumption]]; now apply _move_table_path.
Qed.

End MoveProperties.

(** ** Edges *)

Lemma pair_in_In (e : nat * nat) (l : list (nat * nat)) :
  pair_in e l = true <-> In e l.
Proof.
  unfold pair_in. rewrite existsb_exists. split.
  - intros [x [Hx Heq]]. unfold pair_eqb in Heq.
    apply andb_true_iff in Heq. destruct Heq as [H1 H2].
    apply Nat.eqb_eq in H1, H2. destruct e, x; simpl in *; subst. assumption.
  - intros H. exists e. split; [assumption |].
    unfold pair_eqb. now rewrite !Nat.eqb_refl.
Qed.

Lemma undirected_unique_nil : undirected_unique [].
Proof.
  intros a b e1 e2 _ H. destruct a; discriminate.
Qed.

Lemma undirected_unique_snoc (l : list (nat * nat)) (e : nat * nat) :
  undirected_unique l -> ~ In e l -> ~ In (snd e, fst e) l ->
  undirected_unique (l ++ [e]).
Proof.
  intros Hl He Hrev a b e1 e2 Hab H1 H2.
  assert (Hb : b < length (l ++ [e])) by (apply nth_error_Some; congruence).
  rewrite length_app in Hb. simpl in Hb.
  destruct (Nat.lt_ge_cases b (length l)) as [Hlt | Hge].
  - rewrite nth_error_app1 in H1, H2 by lia. exact (Hl a b e1 e2 Hab H1 H2).
  - assert (b = length l) by lia. subst b.
    rewrite nth_error_app2, Nat.sub_diag in H2 by lia. simpl in H2.
    injection H2 as <-.
    rewrite nth_error_app1 in H1 by lia. apply nth_error_In in H1.
    intros [-> | ->]; contradiction.
Qed.

(** A loop that appends a pair only when neither it nor its reverse is in
    the list keeps the list free of repeated undirected pairs. *)
Lemma foldM_undirected_unique {A : Type}
    (body : list (nat * nat) -> A -> result (list (nat * nat))) (ws : list A) :
  (forall acc w acc', body acc w = Ok acc' ->
     acc' = acc \/
     exists e, acc' = acc ++ [e] /\ ~ In e acc /\ ~ In (snd e, fst e) acc) ->
  forall acc r, undirected_unique acc -> foldM body ws acc = Ok r ->
                undirected_unique r.
Proof.
  intros Hbody. apply foldM_invariant.
  intros acc w acc' _ Hacc Hstep.
  destruct (Hbody _ _ _ Hstep) as [-> | [e [-> [H1 H2]]]].
  - assumption.
  - now apply undirected_unique_snoc.
Qed.

Lemma active_indices_In (act : list bool) (i : nat) :
  In i (active_indices act) <-> nth_error act i = Some true.
Proof.
  unfold active_indices. rewrite filter_In, in_seq. split.
  - intros [[_ Hi] Hn]. simpl in Hi.
    rewrite (nth_error_nth' act false Hi). now rewrite Hn.
  - intros H. assert (Hi : i < length act) by (apply nth_error_Some; congruence).
    split; [simpl; lia |]. now rewrite (nth_error_nth act i false H).
Qed.

Lemma foldM_ext {A S : Type} (f g : S -> A -> result S) (l : list A) (acc : S) :
  (forall a x, f a x = g a x) -> foldM f l acc = foldM g l acc.
Proof.
  intros E. revert acc. induction l as [|x l IH]; intros acc; simpl.
  - reflexivity.
  - rewrite E. destruct (g acc x); simpl; [apply IH | reflexivity].
Qed.

Lemma mapM_ext {A B : Type} (f g : A -> result B) (l : list A) :
  (forall x, f x = g x) -> mapM f l = mapM g l.
Proof.
  intros E. induction l as [|x l IH]; simpl.
  - reflexivity.
  - now rewrite E, IH.
Qed.

Section EdgeProperties.
Context {C : Collaborators}.

Lemma edge_step_Ok (self : polytope) (i : nat) (acc acc' : list (nat * nat))
    (w : word) :
  BasePolytope.edge_step self i acc w = Ok acc' ->
  exists v1 v2,
    _move self 0 w = Ok v1 /\ _move self 0 (i :: w) = Ok v2 /\
    (((In (v1, v2) acc \/ In (v2, v1) acc) /\ acc' = acc) \/
     (~ In (v1, v2) acc /\ ~ In (v2, v1) acc /\ acc' = acc ++ [(v1, v2)])).
Proof.
  unfold BasePolytope.edge_step. intros H. inv_bind H. inv_bind H.
  exists x, x0. split; [reflexivity |]. split; [reflexivity |].
  destruct (pair_in (x, x0) acc) eqn:E1; simpl in H.
  - injection H as <-. left. split; [| reflexivity]. left. now apply pair_in_In.
  - destruct (pair_in (x0, x) acc) eqn:E2; simpl in H; injection H as <-.
    + left. split; [| reflexivity]. right. now apply pair_in_In.
    + right. repeat split.
      * intros Hin. apply pair_in_In in Hin. congruence.
      * intros Hin. apply pair_in_In in Hin. congruence.
Qed.

Lemma snub_edge_step_Ok (self : polytope) (e0 : nat * nat)
    (acc acc' : list (nat * nat)) (w : word) :
  Snub.edge_step self e0 acc w = Ok acc' ->
  acc' = acc \/
  exists e, acc' = acc ++ [e] /\ ~ In e acc /\ ~ In (snd e, fst e) acc.
Proof.
  unfold Snub.edge_step. intros H. inv_bind H. inv_bind H.
  destruct (pair_in (x, x0) acc) eqn:E1; simpl in H.
  - injection H as <-. now left.
  - destruct (pair_in (x0, x) acc) eqn:E2; simpl in H; injection H as <-.
    + now left.
    + right. exists (x, x0). repeat split.
      * intros Hin. apply pair_in_In in Hin. congruence.
      * intros Hin. apply pair_in_In in Hin. simpl in *. congruence.
Qed.

(** What the loop over the words of one edge type leaves in the list. *)
Lemma edge_loop (self : polytope) (i : nat) (ws : list word) :
  forall acc r,
    foldM (BasePolytope.edge_step self i) ws acc = Ok r ->
    (forall e, In e acc -> In e r) /\
    (forall v1 v2, In (v1, v2) r ->
       In (v1, v2) acc \/
       exists w, In w ws /\ _move self 0 w = Ok v1 /\ _move self 0 (i :: w) = Ok v2) /\
    (forall w, In w ws ->
       exists v1 v2, _move self 0 w = Ok v1 /\ _move self 0 (i :: w) = Ok v2 /\
                     (In (v1, v2) r \/ In (v2, v1) r)).
Proof.
  induction ws as [|w ws IH]; intros acc r H; simpl in H.
  - injection H as <-. repeat split; auto. intros w [].
  - inv_bind H. destruct (IH _ _ H) as [Hmono [Hfrom Hall]].
    destruct (edge_step_Ok _ _ _ _ _ E) as [v1 [v2 [M1 [M2 Hcase]]]].
    assert (Hsub : forall e, In e acc -> In e x).
    { intros e He. destruct Hcase as [[_ ->] | [_ [_ ->]]]; [assumption |].
      apply in_or_app. now left. }
    split; [auto |]. split.
    + intros a b Hab. destruct (Hfrom _ _ Hab) as [Hx | [w' [Hw' Hm]]].
      * destruct Hcase as [[_ ->] | [_ [_ ->]]]; [now left |].
        apply in_app_or in Hx. destruct Hx as [Hx | [Hx | []]]; [now left |].
        injection Hx as <- <-. right. exists w. split; [now left | auto].
      * right. exists w'. split; [now right | assumption].
    + intros w' [<- | Hw'].
      * exists v1, v2. split; [assumption |]. split; [assumption |].
        destruct Hcase as [[[Hin | Hin] ->] | [_ [_ ->]]].
        -- left. auto.
        -- right. auto.
        -- left. apply Hmono. apply in_or_app. right. now left.
      * now apply Hall.
Qed.

Lemma edge_step_ext (s1 s2 : polytope) (i : nat) (acc : list (nat * nat)) (w : word) :
  _vtable s1 = _vtable s2 ->
  BasePolytope.edge_step s1 i acc w = BasePolytope.edge_step s2 i acc w.
Proof.
  intros E. unfold BasePolytope.edge_step.
  now rewrite (_move_ext s1 s2 0 w E), (_move_ext s1 s2 0 (i :: w) E).
Qed.

Lemma edge_coord_Ok (self : polytope) (e : nat * nat) (c : Vec * Vec) :
  BasePolytope.edge_coord self e = Ok c <-> coords_of_edge self e c.
Proof.
  unfold BasePolytope.edge_coord, coords_of_edge. split.
  - intros H. inv_bind H. inv_bind H. injection H as <-.
    apply getitem_Ok in E, E0. simpl. auto.
  - intros [H1 H2]. apply getitem_Ok in H1, H2. rewrite H1, H2. simpl.
    now destruct c.
Qed.

Lemma edge_type_built_ext (s1 s2 : polytope) (i : nat)
    (ec : list (nat * nat) * list (Vec * Vec)) :
  base_of s1 = base_of s2 -> edge_type_built s1 i ec -> edge_type_built s2 i ec.
Proof.
  unfold base_of. intros E [t [Hrun [Hloop Hc]]].
  injection E as Et _ Ev _ _ Eg Er. exists t. rewrite <- Eg, <- Er.
  split; [assumption |]. split.
  - rewrite <- Hloop. apply foldM_ext. intros a w. symmetry. now apply edge_step_ext.
  - rewrite <- Hc. apply mapM_ext. intros e. unfold BasePolytope.edge_coord.
    now rewrite Ev.
Qed.

Lemma edge_type_step_Ok (self self' : polytope) (ia : nat * bool) :
  BasePolytope.edge_type_step self ia = Ok self' ->
  (snd ia = false /\ self' = self) \/
  (snd ia = true /\
   exists ec, edge_type_built self (fst ia) ec /\
              self' = append_edges self (fst ec) (snd ec)).
Proof.
  unfold BasePolytope.edge_type_step. destruct (snd ia); intros H.
  - right. split; [reflexivity |]. inv_bind H. inv_bind H. inv_bind H.
    injection H as <-. exists (x0, x1). split; [| reflexivity].
    exists x. auto.
  - left. injection H as <-. auto.
Qed.

(** What the loop over the mirrors leaves in the object. *)
Lemma edge_types_loop (l : list (nat * bool)) :
  forall self self',
    foldM BasePolytope.edge_type_step l self = Ok self' ->
    base_of self' = base_of self /\
    num_edges self' = num_edges self /\
    exists ecs,
      edge_indices self' = edge_indices self ++ map fst ecs /\
      edge_coords self' = edge_coords self ++ map snd ecs /\
      Forall2 (edge_type_built self) (map fst (filter snd l)) ecs.
Proof.
  induction l as [|ia l IH]; intros self self' H; simpl in H.
  - injection H as <-. split; [reflexivity |]. split; [reflexivity |].
    exists []. simpl. rewrite !app_nil_r. repeat split. constructor.
  - inv_bind H. destruct (IH _ _ H) as [Hb [Hn [ecs [Hi [Hc Hall]]]]].
    apply edge_type_step_Ok in E.
    destruct E as [[Ha ->] | [Ha [ec [Hec ->]]]].
    + split; [assumption |]. split; [assumption |]. exists ecs.
      simpl. rewrite Ha. auto.
    + split; [rewrite Hb; reflexivity |]. split; [rewrite Hn; reflexivity |].
      exists (ec :: ecs). simpl. rewrite Ha. simpl in Hi, Hc.
      rewrite <- !app_assoc in Hi, Hc. simpl in Hi, Hc.
      split; [assumption |]. split; [assumption |]. simpl.
      constructor; [assumption |].
      eapply Forall2_impl; [| exact Hall].
      intros i ec'. apply edge_type_built_ext. reflexivity.
Qed.

Lemma active_indices_enumerate (act : list bool) :
  map fst (filter snd (enumerate act)) = active_indices act.
Proof.
  unfold active_indices, enumerate.
  rewrite <- (filter_ext (fun i => nth (i - 0) act false)).
  - exact (filter_enumerate (fun b : bool => b) false act 0).
  - intros i. now rewrite Nat.sub_0_r.
Qed.

Lemma edge_type_built_lists (self : polytope) (l : list nat)
    (ecs : list (list (nat * nat) * list (Vec * Vec))) :
  Forall2 (edge_type_built self) l ecs ->
  Forall2 (fun i elist =>
             exists t,
               CosetTable_run (symmetry_gens self) (symmetry_rels self)
                              (Some [[i]]) None = Ok t /\
               edges_of_type self i (ct_words t) elist)
          l (map fst ecs) /\
  Forall2 (Forall2 (coords_of_edge self)) (map fst ecs) (map snd ecs) /\
  Forall undirected_unique (map fst ecs).
Proof.
  induction 1 as [|i ec l ecs [t [Hrun [Hloop Hc]]] _ [IH1 [IH2 IH3]]]; simpl.
  - repeat split; constructor.
  - repeat split; constructor; try assumption.
    + exists t. split; [assumption |].
      destruct (edge_loop _ _ _ _ _ Hloop) as [_ [Hfrom Hall]]. split.
      * intros v1 v2 Hin. destruct (Hfrom _ _ Hin) as [[] | Hw]. exact Hw.
      * exact Hall.
    + apply mapM_Forall2 in Hc. eapply Forall2_impl; [| exact Hc].
      intros e c. apply edge_coord_Ok.
    + eapply foldM_undirected_unique; [| apply undirected_unique_nil | exact Hloop].
      intros acc w acc' Hstep.
      destruct (edge_step_Ok _ _ _ _ _ Hstep) as [v1 [v2 [_ [_ Hcase]]]].
      destruct Hcase as [[_ ->] | [H1 [H2 ->]]]; [now left |].
      right. exists (v1, v2). auto.
Qed.

Lemma get_edges_Ok (self self' : polytope) :
  BasePolytope.get_edges self = Ok self' ->
  exists s1,
    foldM BasePolytope.edge_type_step (enumerate (active self)) self = Ok s1 /\
    self' = set_num_edges s1 (total_length (edge_indices s1)).
Proof.
  unfold BasePolytope.get_edges. intros H. inv_bind H. injection H as <-. eauto.
Qed.

(** C3: the edge stage builds one edge type for each active mirror, in
    increasing order of the mirror's index, and none for the others.  For
    the active mirror [i] it enumerates the cosets of the subgroup generated
    by [(i,)]; every edge it keeps joins [move(0, w)] and
    [move(0, (i,) + w)] for a word [w] of that enumeration, and every word's
    edge is kept in one direction.  [move] applies the action table of the
    vertex stage once per letter, from the first letter to the last: it
    returns a vertex exactly when the word can be followed on the table,
    each letter replacing the vertex by the entry of its row at the letter,
    and it returns the vertex the path ends in; so the two ends of an edge
    are the cosets that the table reaches from coset 0 along [w] and along
    [(i,) + w].  The coordinates of an edge are the entries of the vertex
    coordinate list at its two ends, and the stage leaves that list and
    the action table as they were. *)
Theorem C3_edge_builder (self self' : polytope) :
  BasePolytope.get_edges self = Ok self' ->
  exists elists ecoords,
    edge_indices self' = edge_indices self ++ elists /\
    edge_coords self' = edge_coords self ++ ecoords /\
    (forall i, In i (active_indices (active self)) <->
               nth_error (active self) i = Some true) /\
    Forall2 (fun i elist =>
               exists t,
                 CosetTable_run (symmetry_gens self) (symmetry_rels self)
                                (Some [[i]]) None = Ok t /\
                 edges_of_type self i (ct_words t) elist /\
                 edges_on_table (_vtable self) i (ct_words t) elist)
            (active_indices (active self)) elists /\
    (forall v w v', _move self v w = Ok v' <-> table_path (_vtable self) v w v') /\
    Forall2 (Forall2 (coords_of_edge self)) elists ecoords /\
    vertex_coords self' = vertex_coords self /\
    _vtable self' = _vtable self /\
    num_edges self' = Some (total_length (edge_indices self')).
Proof.
  intros H. apply get_edges_Ok in H. destruct H as [s1 [Hloop ->]].
  apply edge_types_loop in Hloop.
  destruct Hloop as [Hb [_ [ecs [Hi [Hc Hall]]]]].
  rewrite active_indices_enumerate in Hall.
  apply edge_type_built_lists in Hall. destruct Hall as [H1 [H2 _]].
  unfold base_of in Hb. injection Hb as Et _ Ev _ _ _ _.
  exists (map fst ecs), (map snd ecs). simpl.
  split; [assumption |]. split; [assumption |].
  split; [apply active_indices_In |].
  split.
  { eapply Forall2_impl; [| exact H1].
    intros i elist [t [Hrun Hedges]]. exists t.
    split; [exact Hrun |]. split; [exact Hedges |].
    now apply edges_of_type_on_table. }
  split; [intros v w v'; apply _move_table_path |].
  split; [assumption |]. auto.
Qed.

Lemma snub_edge_type_step_Ok (self self' : polytope) (rot : word) :
  Snub.edge_type_step self rot = Ok self' ->
  exists elist ecoords,
    self' = append_edges self elist ecoords /\ undirected_unique elist.
Proof.
  unfold Snub.edge_type_step. intros H.
  inv_bind H. inv_bind H. inv_bind H. inv_bind H. injection H as <-.
  exists x1, x2. split; [reflexivity |].
  eapply foldM_undirected_unique; [| apply undirected_unique_nil | exact E1].
  intros acc w acc'. apply snub_edge_step_Ok.
Qed.

(** C4: in the base builder and in the snub variant, every edge list the
    edge stage adds is free of repeated undirected pairs: no two of its
    entries are the same pair or a pair and its reverse. *)
Theorem C4_edges_undirected_unique :
  (forall self self' : polytope,
     BasePolytope.get_edges self = Ok self' ->
     exists elists,
       edge_indices self' = edge_indices self ++ elists /\
       Forall undirected_unique elists) /\
  (forall s s' : Snub.snub,
     Snub.get_edges s = Ok s' ->
     exists elists,
       edge_indices (Snub.base s') = edge_indices (Snub.base s) ++ elists /\
       Forall undirected_unique elists).
Proof.
  split.
  - intros self self' H. apply get_edges_Ok in H. destruct H as [s1 [Hloop ->]].
    apply edge_types_loop in Hloop. destruct Hloop as [_ [_ [ecs [Hi [_ Hall]]]]].
    apply edge_type_built_lists in Hall. destruct Hall as [_ [_ Hu]].
    exists (map fst ecs). split; assumption.
  - intros s s' H. unfold Snub.get_edges in H. inv_bind H. injection H as <-.
    simpl.
    apply (foldM_invariant
             (fun p : polytope =>
                exists elists,
                  edge_indices p = edge_indices (Snub.base s) ++ elists /\
                  Forall undirected_unique elists)
             Snub.edge_type_step (map fst (Snub.rotations s)))
      with (acc := Snub.base s); [| | exact E].
    + intros acc rot acc' _ [elists [Hi Hu]] Hstep.
      apply snub_edge_type_step_Ok in Hstep.
      destruct Hstep as [elist [ecoords [-> Hel]]].
      exists (elists ++ [elist]). simpl. rewrite Hi, app_assoc.
      split; [reflexivity |]. apply Forall_app. split; [assumption |].
      constructor; [assumption | constructor].
    + exists []. rewrite app_nil_r. split; [reflexivity | constructor].
Qed.

End EdgeProperties.

(** C3 on the same box: the edge types of the mirrors 0 and 2, with the
    ends of every edge read off the action table. *)
Lemma C3_box_edges :
  BasePolytope.get_edges Box.slab1 = Ok Box.slab2 /\
  edge_indices Box.slab2 = [[(0, 1); (2, 3)]; [(0, 2); (1, 3)]] /\
  Forall2 (fun i elist =>
             exists t,
               @CosetTable_run Box.collaborators [0; 1; 2]
                 [[0; 1; 0; 1]; [0; 2; 0; 2]; [1; 2; 1; 2]] (Some [[i]]) None = Ok t /\
               edges_on_table (_vtable Box.slab1) i (ct_words t) elist)
          [0; 2] [[(0, 1); (2, 3)]; [(0, 2); (1, 3)]] /\
  table_path (_vtable Box.slab1) 0 [0; 2] 3 /\
  Forall2 (Forall2 (coords_of_edge Box.slab1))
          [[(0, 1); (2, 3)]; [(0, 2); (1, 3)]] (edge_coords Box.slab2).
Proof.
  assert (H : BasePolytope.get_edges Box.slab1 = Ok Box.slab2)
    by (vm_compute; reflexivity).
  destruct (C3_edge_builder Box.slab1 Box.slab2 H)
    as [elists [ecoords [Hi [Hc [_ [Hall [Hmove [Hco _]]]]]]]].
  assert (Ei : edge_indices Box.slab2 = [[(0, 1); (2, 3)]; [(0, 2); (1, 3)]])
    by (vm_compute; reflexivity).
  assert (E1 : edge_indices Box.slab1 = []) by (vm_compute; reflexivity).
  assert (C1 : edge_coords Box.slab1 = []) by (vm_compute; reflexivity).
  rewrite E1, Ei in Hi. rewrite C1 in Hc. cbn [app] in Hi, Hc.
  rewrite <- Hi in Hall, Hco. rewrite <- Hc in Hco.
  split; [exact H |]. split; [exact Ei |]. split; [| split; [| exact Hco]].
  - eapply Forall2_impl; [| exact Hall].
    intros i elist [t [Hrun [_ Hedges]]]. exists t. split; [exact Hrun | exact Hedges].
  - apply Hmove. vm_compute. reflexivity.
Defined.

(** C4 on the same box and on the snub of the box. *)
Lemma C4_box_edges :
  (exists elists,
     edge_indices Box.slab2 = edge_indices Box.slab1 ++ elists /\
     Forall undirected_unique elists) /\
  (exists elists,
     edge_indices (Snub.base Box.snub2)
       = edge_indices (Snub.base Box.snub1) ++ elists /\
     Forall undirected_unique elists).
Proof.
  destruct (@C4_edges_undirected_unique Box.collaborators) as [Hbase Hsnub].
  split.
  - apply Hbase. vm_compute. reflexivity.
  - apply Hsnub. vm_compute. reflexivity.
Defined.

(** ** Cycles up to rotation and reversal *)

Lemma list_eqb_eq (f g : list nat) : list_eqb f g = true <-> f = g.
Proof.
  revert g. induction f as [|x f IH]; intros [|y g]; simpl;
    try (split; [discriminate | discriminate]); try tauto.
  rewrite andb_true_iff, Nat.eqb_eq, IH. split.
  - intros [-> ->]. reflexivity.
  - intros H. injection H as -> ->. auto.
Qed.

Lemma rot1_length (f : list nat) : length (rot1 f) = length f.
Proof.
  destruct f as [|x f]; simpl; [reflexivity |].
  rewrite length_app. simpl. lia.
Qed.

(** Rotating by the length of a prefix moves the prefix to the end. *)
Lemma rot_prefix (l m : list nat) : Nat.iter (length l) rot1 (l ++ m) = m ++ l.
Proof.
  revert m. induction l as [|a l IH]; intros m.
  - simpl. now rewrite app_nil_r.
  - cbn [length]. rewrite Nat.iter_succ_r. cbn [app rot1].
    rewrite <- app_assoc, IH, <- app_assoc. reflexivity.
Qed.

Lemma rot_full (f : list nat) : Nat.iter (length f) rot1 f = f.
Proof.
  rewrite <- (app_nil_r f) at 2. rewrite rot_prefix. reflexivity.
Qed.

Lemma rot_add (a b : nat) (f : list nat) :
  Nat.iter (a + b) rot1 f = Nat.iter a rot1 (Nat.iter b rot1 f).
Proof.
  induction a as [|a IH]; simpl; [reflexivity | now rewrite IH].
Qed.

Lemma rot_turns (q : nat) (f : list nat) : Nat.iter (q * length f) rot1 f = f.
Proof.
  induction q as [|q IH]; simpl; [reflexivity |].
  rewrite rot_add, IH. apply rot_full.
Qed.

Lemma rot_nil (k : nat) : Nat.iter k rot1 [] = [].
Proof.
  induction k as [|k IH]; simpl; [reflexivity | now rewrite IH].
Qed.

Lemma rot_mod (k : nat) (f : list nat) :
  exists r, r <= length f /\ Nat.iter k rot1 f = Nat.iter r rot1 f.
Proof.
  destruct f as [|x f].
  - exists 0. rewrite rot_nil. simpl. auto.
  - set (n := length (x :: f)). exists (k mod n). split.
    + assert (k mod n < n) by (apply Nat.mod_upper_bound; discriminate). lia.
    + replace (Nat.iter k rot1 (x :: f))
        with (Nat.iter (k mod n + (k / n) * n) rot1 (x :: f)).
      * rewrite rot_add. unfold n. now rewrite rot_turns.
      * f_equal. rewrite (Nat.div_mod_eq k n) at 3. lia.
Qed.

Lemma rot_inverse (k : nat) (f : list nat) :
  exists k', Nat.iter k' rot1 (Nat.iter k rot1 f) = f.
Proof.
  destruct f as [|x f].
  - exists 0. simpl. apply rot_nil.
  - exists (k * length f). rewrite <- rot_add.
    replace (k * length f + k) with (k * length (x :: f)) by (simpl; lia).
    apply rot_turns.
Qed.

Lemma rev_rot1 (f : list nat) :
  rev (rot1 f) = Nat.iter (length f - 1) rot1 (rev f).
Proof.
  destruct f as [|x f]; [reflexivity |].
  cbn [rot1 length rev]. rewrite rev_app_distr. simpl.
  rewrite Nat.sub_0_r, <- (length_rev f). now rewrite rot_prefix.
Qed.

Lemma rev_rot (k : nat) (f : list nat) :
  exists k', rev (Nat.iter k rot1 f) = Nat.iter k' rot1 (rev f).
Proof.
  induction k as [|k [k' IH]].
  - exists 0. reflexivity.
  - simpl. rewrite rev_rot1, IH, <- rot_add. eauto.
Qed.

Lemma variant_of_sym (f g : list nat) : variant_of f g -> variant_of g f.
Proof.
  intros [k [-> | ->]].
  - destruct (rot_inverse k f) as [k' H]. exists k'. left. now rewrite H.
  - destruct (rev_rot k (rev f)) as [k1 H1]. rewrite rev_involutive in H1.
    destruct (rot_inverse k1 f) as [k2 H2].
    exists k2. right. now rewrite H1, H2.
Qed.

Lemma variant_of_trans (f g h : list nat) :
  variant_of f g -> variant_of g h -> variant_of f h.
Proof.
  intros [k [-> | ->]] [j [-> | ->]].
  - exists (j + k). left. now rewrite rot_add.
  - destruct (rev_rot k f) as [k' ->]. exists (j + k'). right. now rewrite rot_add.
  - exists (j + k). right. now rewrite rot_add.
  - destruct (rev_rot k (rev f)) as [k' ->]. rewrite rev_involutive.
    exists (j + k'). left. now rewrite rot_add.
Qed.

Lemma same_cycle_rotated (k : nat) (f : list nat) :
  same_cycle f (Nat.iter k rot1 f).
Proof.
  induction k as [|k IH]; simpl.
  - constructor.
  - eapply same_cycle_trans; [exact IH |].
    destruct (Nat.iter k rot1 f) as [|x g]; simpl; constructor.
Qed.

Lemma same_cycle_variant (f g : list nat) : same_cycle f g <-> variant_of f g.
Proof.
  split.
  - induction 1 as [f | x f | f | f g _ IH | f g h _ IH1 _ IH2].
    + exists 0. now left.
    + exists 1. now left.
    + exists 0. now right.
    + now apply variant_of_sym.
    + eapply variant_of_trans; eassumption.
  - intros [k [-> | ->]].
    + apply same_cycle_rotated.
    + eapply same_cycle_trans; [apply same_cycle_rev | apply same_cycle_rotated].
Qed.

Lemma rotations_of_In (n : nat) (f g : list nat) :
  In g (rotations_of n f) <-> exists k, k < n /\ g = Nat.iter k rot1 f.
Proof.
  revert f. induction n as [|n IH]; intros f; simpl.
  - split; [tauto | intros [k [Hk _]]; lia].
  - rewrite IH. split.
    + intros [<- | [k [Hk ->]]].
      * exists 0. split; [lia | reflexivity].
      * exists (S k). split; [lia |]. now rewrite Nat.iter_succ_r.
    + intros [[|k] [Hk ->]].
      * now left.
      * right. exists k. split; [lia |]. now rewrite Nat.iter_succ_r.
Qed.

Lemma face_variants_In (f g : list nat) :
  In g (face_variants f) <-> same_cycle f g.
Proof.
  rewrite same_cycle_variant. unfold face_variants, variant_of.
  rewrite in_app_iff, !rotations_of_In. split.
  - intros [[k [_ ->]] | [k [_ ->]]]; eauto.
  - intros [k [-> | ->]].
    + left. destruct (rot_mod k f) as [r [Hr ->]]. exists r. split; [lia | reflexivity].
    + right. destruct (rot_mod k (rev f)) as [r [Hr ->]]. rewrite length_rev in Hr.
      exists r. split; [lia | reflexivity].
Qed.

(** The duplicate check finds a face exactly when the list holds one that is
    the candidate up to rotation and reversal. *)
Lemma check_duplicate_face_spec (f : list nat) (l : list (list nat)) :
  check_duplicate_face f l = true <-> exists g, In g l /\ same_cycle f g.
Proof.
  unfold check_duplicate_face. rewrite existsb_exists. split.
  - intros [g [Hg H]]. apply existsb_exists in H. destruct H as [g' [Hg' Heq]].
    apply list_eqb_eq in Heq. subst g'. exists g. split; [assumption |].
    now apply face_variants_In.
  - intros [g [Hg H]]. exists g. split; [assumption |].
    apply existsb_exists. exists g. split; [now apply face_variants_In |].
    now apply list_eqb_eq.
Qed.

Lemma cycle_unique_nil : cycle_unique [].
Proof.
  intros a b f g _ H. destruct a; discriminate.
Qed.

Lemma cycle_unique_snoc (l : list (list nat)) (f : list nat) :
  cycle_unique l -> (forall g, In g l -> ~ same_cycle f g) ->
  cycle_unique (l ++ [f]).
Proof.
  intros Hl Hf a b g1 g2 Hab H1 H2.
  assert (Hb : b < length (l ++ [f])) by (apply nth_error_Some; congruence).
  rewrite length_app in Hb. simpl in Hb.
  destruct (Nat.lt_ge_cases b (length l)) as [Hlt | Hge].
  - rewrite nth_error_app1 in H1, H2 by lia. exact (Hl a b g1 g2 Hab H1 H2).
  - assert (b = length l) by lia. subst b.
    rewrite nth_error_app2, Nat.sub_diag in H2 by lia. simpl in H2.
    injection H2 as <-.
    rewrite nth_error_app1 in H1 by lia. apply nth_error_In in H1.
    intros Hs. apply (Hf g1 H1). now apply same_cycle_sym.
Qed.

(** ** Faces *)

(** A loop that appends one computed value per element is a [mapM]. *)
Lemma foldM_append_one {A B : Type} (f : A -> result B) (l : list A) (acc : list B) :
  foldM (fun acc k => a <- f k ;; Ok (acc ++ [a])) l acc =
  (ys <- mapM f l ;; Ok (acc ++ ys)).
Proof.
  revert acc. induction l as [|k l IH]; intros acc; simpl.
  - now rewrite app_nil_r.
  - destruct (f k) as [a|e]; simpl; [| reflexivity].
    rewrite IH. destruct (mapM f l); simpl; [| reflexivity].
    now rewrite <- app_assoc.
Qed.

(** A loop that appends two computed values per element is a [mapM] over
    the two per element, interleaved. *)
Lemma foldM_append_two {A B W : Type} (mv : W -> result B) (w1 w2 : A -> W)
    (l : list A) (acc : list B) :
  foldM (fun acc k => a <- mv (w1 k) ;; b <- mv (w2 k) ;; Ok ((acc ++ [a]) ++ [b]))
        l acc =
  (ys <- mapM mv (flat_map (fun k => [w1 k; w2 k]) l) ;; Ok (acc ++ ys)).
Proof.
  revert acc. induction l as [|k l IH]; intros acc; simpl.
  - now rewrite app_nil_r.
  - destruct (mv (w1 k)) as [a|e]; simpl; [| reflexivity].
    destruct (mv (w2 k)) as [b|e]; simpl; [| reflexivity].
    rewrite IH. destruct (mapM mv _); simpl; [| reflexivity].
    now rewrite <- !app_assoc.
Qed.





Section FaceProperties.
Context {C : Collaborators}.

Lemma f0_one_mapM (self : polytope) (i j : nat) (m : Z) :
  BasePolytope.f0_one self i j m = mapM (_move self 0) (rotation_words i j m).
Proof.
  unfold BasePolytope.f0_one, rotation_words.
  rewrite (foldM_append_one (fun k => _move self 0 (tuple_mul [i; j] (Z.of_nat k)))).
  simpl. generalize (range m) as l. induction l as [|k l IH]; simpl.
  - reflexivity.
  - destruct (_move self 0 (tuple_mul [i; j] (Z.of_nat k))); simpl; [| reflexivity].
    rewrite <- IH.
    destruct (mapM (fun k0 => _move self 0 (tuple_mul [i; j] (Z.of_nat k0))) l);
      reflexivity.
Qed.

Lemma f0_both_mapM (self : polytope) (i j : nat) (m : Z) :
  BasePolytope.f0_both self i j m = mapM (_move self 0) (alternating_words i j m).
Proof.
  unfold BasePolytope.f0_both, alternating_words.
  rewrite (foldM_append_two (_move self 0)
             (fun k => tuple_mul [i; j] (Z.of_nat k))
             (fun k => j :: tuple_mul [i; j] (Z.of_nat k))).
  destruct (mapM _ _); reflexivity.
Qed.


Lemma face_step_Ok (self : polytope) (f0 : list nat) (acc acc' : list (list nat))
    (w : word) :
  BasePolytope.face_step self f0 acc w = Ok acc' ->
  exists f,
    mapM (fun v => _move self v w) f0 = Ok f /\
    (((exists g, In g acc /\ same_cycle f g) /\ acc' = acc) \/
     ((forall g, In g acc -> ~ same_cycle f g) /\ acc' = acc ++ [f])).
Proof.
  unfold BasePolytope.face_step. intros H. inv_bind H. exists x.
  split; [reflexivity |].
  destruct (check_duplicate_face x acc) eqn:Ed; simpl in H; injection H as <-.
  - left. split; [| reflexivity]. now apply check_duplicate_face_spec.
  - right. split; [| reflexivity]. intros g Hg Hs.
    assert (check_duplicate_face x acc = true)
      by (apply check_duplicate_face_spec; eauto).
    congruence.
Qed.

(** What the loop over the words of one face type leaves in the list. *)
Lemma face_loop (self : polytope) (f0 : list nat) (ws : list word) :
  forall acc r,
    foldM (BasePolytope.face_step self f0) ws acc = Ok r ->
    (forall f, In f acc -> In f r) /\
    (forall f, In f r ->
       In f acc \/ exists w, In w ws /\ mapM (fun v => _move self v w) f0 = Ok f) /\
    (forall w, In w ws ->
       exists f g, mapM (fun v => _move self v w) f0 = Ok f /\
                   In g r /\ same_cycle f g) /\
    (cycle_unique acc -> cycle_unique r).
Proof.
  induction ws as [|w ws IH]; intros acc r H; simpl in H.
  - injection H as <-. repeat split; auto. intros w [].
  - inv_bind H. destruct (IH _ _ H) as [Hmono [Hfrom [Hall Huniq]]].
    destruct (face_step_Ok _ _ _ _ _ E) as [f [Hf Hcase]].
    assert (Hsub : forall g, In g acc -> In g x).
    { intros g Hg. destruct Hcase as [[_ ->] | [_ ->]]; [assumption |].
      apply in_or_app. now left. }
    split; [auto |]. split; [| split].
    + intros g Hg. destruct (Hfrom _ Hg) as [Hx | [w' [Hw' Hm]]].
      * destruct Hcase as [[_ ->] | [_ ->]]; [now left |].
        apply in_app_or in Hx. destruct Hx as [Hx | [<- | []]]; [now left |].
        right. exists w. split; [now left | assumption].
      * right. exists w'. split; [now right | assumption].
    + intros w' [<- | Hw'].
      * destruct Hcase as [[[g [Hg Hs]] ->] | [_ ->]].
        -- exists f, g. auto.
        -- exists f, f. split; [assumption |]. split; [| constructor].
           apply Hmono. apply in_or_app. right. now left.
      * now apply Hall.
    + intros Hacc. apply Huniq.
      destruct Hcase as [[_ ->] | [Hnew ->]]; [assumption |].
      now apply cycle_unique_snoc.
Qed.

Lemma face_step_ext (s1 s2 : polytope) (f0 : list nat) (acc : list (list nat))
    (w : word) :
  _vtable s1 = _vtable s2 ->
  BasePolytope.face_step s1 f0 acc w = BasePolytope.face_step s2 f0 acc w.
Proof.
  intros E. unfold BasePolytope.face_step.
  rewrite (mapM_ext (fun v => _move s1 v w) (fun v => _move s2 v w)); [reflexivity |].
  intros v. now apply _move_ext.
Qed.

Lemma face_setup_ext (s1 s2 : polytope) (i j : nat) :
  base_of s1 = base_of s2 ->
  BasePolytope.face_setup s1 i j = BasePolytope.face_setup s2 i j.
Proof.
  unfold base_of. intros E. injection E as Et _ _ Ea Em _ _.
  assert (Eb : forall m, BasePolytope.f0_both s1 i j m = BasePolytope.f0_both s2 i j m).
  { intros m. rewrite !f0_both_mapM. apply mapM_ext. intros w. now apply _move_ext. }
  assert (Eo : forall m, BasePolytope.f0_one s1 i j m = BasePolytope.f0_one s2 i j m).
  { intros m. rewrite !f0_one_mapM. apply mapM_ext. intros w. now apply _move_ext. }
  assert (Ec : coxeter_entry s1 i j = coxeter_entry s2 i j)
    by (unfold coxeter_entry; now rewrite Em).
  unfold BasePolytope.face_setup. rewrite Ea, Ec.
  destruct (getitem (active s2) i) as [[|]|]; cbn [bind]; try reflexivity;
    destruct (getitem (active s2) j) as [[|]|]; cbn [bind]; try reflexivity;
    destruct (coxeter_entry s2 i j) as [m|]; cbn [bind]; try reflexivity;
    try (destruct (2 <? m)%Z; cbn [bind]); rewrite ?Eb, ?Eo; reflexivity.
Qed.

Lemma face_type_built_ext (s1 s2 : polytope) (ij : nat * nat)
    (fc : list (list nat) * list (list Vec)) :
  base_of s1 = base_of s2 -> face_type_built s1 ij fc -> face_type_built s2 ij fc.
Proof.
  intros E [fgens [f0 [t [Hs [Hrun [Hloop Hc]]]]]].
  rewrite (face_setup_ext s1 s2 _ _ E) in Hs.
  unfold base_of in E. injection E as Et _ Ev _ _ Eg Er.
  exists fgens, f0, t. rewrite <- Eg, <- Er.
  split; [assumption |]. split; [assumption |]. split.
  - rewrite <- Hloop. apply foldM_ext. intros a w. symmetry. now apply face_step_ext.
  - rewrite <- Hc. apply mapM_ext. intros f. unfold BasePolytope.face_coord.
    now rewrite Ev.
Qed.

Lemma has_face_ext (s1 s2 : polytope) (ij : nat * nat) :
  base_of s1 = base_of s2 -> has_face s1 ij = has_face s2 ij.
Proof.
  intros E. unfold has_face. now rewrite (face_setup_ext s1 s2 _ _ E).
Qed.

Lemma face_type_step_Ok (self self' : polytope) (ij : nat * nat) :
  BasePolytope.face_type_step self ij = Ok self' ->
  (has_face self ij = false /\ self' = self) \/
  (has_face self ij = true /\
   exists fc, face_type_built self ij fc /\
              self' = append_faces self (fst fc) (snd fc)).
Proof.
  unfold BasePolytope.face_type_step, has_face. intros H. inv_bind H.
  destruct x as [[fgens f0]|].
  - right. split; [reflexivity |]. inv_bind H. inv_bind H. inv_bind H.
    injection H as <-. exists (x0, x1). split; [| reflexivity].
    exists fgens, f0, x. auto.
  - left. injection H as <-. auto.
Qed.

(** What the loop over the mirror pairs leaves in the object. *)
Lemma face_types_loop (l : list (nat * nat)) :
  forall self self',
    foldM BasePolytope.face_type_step l self = Ok self' ->
    base_of self' = base_of self /\
    exists fcs,
      face_indices self' = face_indices self ++ map fst fcs /\
      face_coords self' = face_coords self ++ map snd fcs /\
      Forall2 (face_type_built self) (filter (has_face self) l) fcs.
Proof.
  induction l as [|ij l IH]; intros self self' H; simpl in H.
  - injection H as <-. split; [reflexivity |].
    exists []. simpl. rewrite !app_nil_r. repeat split. constructor.
  - inv_bind H. destruct (IH _ _ H) as [Hb [fcs [Hi [Hc Hall]]]].
    apply face_type_step_Ok in E.
    destruct E as [[Ha ->] | [Ha [fc [Hfc ->]]]].
    + split; [assumption |]. exists fcs. simpl. rewrite Ha. auto.
    + split; [rewrite Hb; reflexivity |].
      exists (fc :: fcs). simpl. rewrite Ha. simpl in Hi, Hc.
      rewrite <- !app_assoc in Hi, Hc. simpl in Hi, Hc.
      split; [assumption |]. split; [assumption |].
      constructor; [assumption |].
      rewrite (filter_ext _ _ (fun ij' => has_face_ext self
                 (append_faces self (fst fc) (snd fc)) ij' eq_refl)).
      eapply Forall2_impl; [| exact Hall].
      intros ij' fc'. apply face_type_built_ext. reflexivity.
Qed.

Lemma face_type_built_lists (self : polytope) (l : list (nat * nat))
    (fcs : list (list (list nat) * list (list Vec))) :
  Forall2 (face_type_built self) l fcs ->
  Forall2 (fun ij flist =>
             exists fgens f0 t,
               BasePolytope.face_setup self (fst ij) (snd ij) = Ok (Some (fgens, f0)) /\
               CosetTable_run (symmetry_gens self) (symmetry_rels self)
                              (Some fgens) None = Ok t /\
               faces_of_base self f0 (ct_words t) flist)
          l (map fst fcs) /\
  Forall cycle_unique (map fst fcs).
Proof.
  induction 1 as [|ij fc l fcs [fgens [f0 [t [Hs [Hrun [Hloop Hc]]]]]] _ [IH1 IH2]];
    simpl.
  - split; constructor.
  - apply face_loop in Hloop. destruct Hloop as [_ [Hfrom [Hall Hu]]].
    split; constructor; try assumption.
    + exists fgens, f0, t. split; [assumption |]. split; [assumption |]. split.
      * intros f Hin. destruct (Hfrom _ Hin) as [[] | Hw]. exact Hw.
      * exact Hall.
    + apply Hu, cycle_unique_nil.
Qed.

Lemma get_faces_Ok (self self' : polytope) :
  BasePolytope.get_faces self = Ok self' ->
  exists s1,
    foldM BasePolytope.face_type_step (combinations2 (symmetry_gens self)) self = Ok s1 /\
    self' = set_num_faces s1 (total_length (face_indices s1)).
Proof.
  unfold BasePolytope.get_faces. intros H. inv_bind H. injection H as <-. eauto.
Qed.


Lemma snub_face_type_step_Ok (self self' : polytope) (f0 : list nat) :
  Snub.face_type_step self f0 = Ok self' ->
  exists flist fcoords,
    self' = append_faces self flist fcoords /\ cycle_unique flist.
Proof.
  unfold Snub.face_type_step. intros H.
  inv_bind H. inv_bind H. inv_bind H. injection H as <-.
  exists x0, x1. split; [reflexivity |].
  apply face_loop in E0. destruct E0 as [_ [_ [_ Hu]]]. apply Hu, cycle_unique_nil.
Qed.

(** C6: the duplicate check finds a candidate exactly when the list holds
    a cycle equal to it up to rotation and reversal; so in the base builder
    and in the snub variant, every face list the face stage adds holds no
    two cycles that are equal up to rotation and reversal. *)
Theorem C6_faces_cycle_unique :
  (forall f l,
     check_duplicate_face f l = true <-> exists g, In g l /\ same_cycle f g) /\
  (forall self self' : polytope,
     BasePolytope.get_faces self = Ok self' ->
     exists flists,
       face_indices self' = face_indices self ++ flists /\
       Forall cycle_unique flists) /\
  (forall s s' : Snub.snub,
     Snub.get_faces s = Ok s' ->
     exists flists,
       face_indices (Snub.base s') = face_indices (Snub.base s) ++ flists /\
       Forall cycle_unique flists).
Proof.
  split; [exact check_duplicate_face_spec | split].
  - intros self self' H. apply get_faces_Ok in H. destruct H as [s1 [Hloop ->]].
    apply face_types_loop in Hloop. destruct Hloop as [_ [fcs [Hi [_ Hall]]]].
    apply face_type_built_lists in Hall. destruct Hall as [_ Hu].
    exists (map fst fcs). split; assumption.
  - intros s s' H. unfold Snub.get_faces in H. inv_bind H. inv_bind H.
    injection H as <-. simpl.
    apply (foldM_invariant
             (fun p : polytope =>
                exists flists,
                  face_indices p = face_indices (Snub.base s) ++ flists /\
                  Forall cycle_unique flists)
             Snub.face_type_step x)
      with (acc := Snub.base s); [| | exact E0].
    + intros acc f0 acc' _ [flists [Hi Hu]] Hstep.
      apply snub_face_type_step_Ok in Hstep.
      destruct Hstep as [flist [fcoords [-> Hfl]]].
      exists (flists ++ [flist]). simpl. rewrite Hi, app_assoc.
      split; [reflexivity |]. apply Forall_app. split; [assumption |].
      constructor; [assumption | constructor].
    + exists []. rewrite app_nil_r. split; [reflexivity | constructor].
Qed.

End FaceProperties.


(** C6 on the same box and on the snub of the box. *)
Lemma C6_box_faces :
  (exists flists,
     face_indices Box.slab3 = face_indices Box.slab2 ++ flists /\
     Forall cycle_unique flists) /\
  (exists flists,
     face_indices (Snub.base Box.snub3)
       = face_indices (Snub.base Box.snub2) ++ flists /\
     Forall cycle_unique flists).
Proof.
  destruct (@C6_faces_cycle_unique Box.collaborators) as [_ [Hbase Hsnub]].
  split.
  - apply Hbase. vm_compute. reflexivity.
  - apply Hsnub. vm_compute. reflexivity.
Defined.

(** ** Construction *)

Section ConstructionProperties.
Context {C : Collaborators}.

(** X1: the 3D constructor refuses every call whose two arguments are not
    both of length 3, before anything else is computed. *)
Lemma Polyhedra_init_arity (upper_triangle : list Z) (init_dist : list Dist) :
  ~ (length upper_triangle = 3 /\ length init_dist = 3) ->
  Polyhedra.init upper_triangle init_dist =
  Raise (ValueError "Three integers and three floats are required").
Proof.
  intros H. unfold Polyhedra.init.
  destruct (length upper_triangle =? length init_dist) eqn:E1;
    destruct (length init_dist =? 3) eqn:E2; simpl; try reflexivity.
  apply Nat.eqb_eq in E1, E2. exfalso. apply H. lia.
Qed.

(** X2: the 4D constructor's check fires exactly when the matrix has a
    wrong length and the distance vector has length 4. *)
Lemma Polychora_init_check (upper_triangle : list Z) (init_dist : list Dist) :
  (length upper_triangle <> 6 /\ length init_dist = 4 ->
   Polychora.init upper_triangle init_dist =
   Raise (ValueError "Six integers and four floats are required")) /\
  (length upper_triangle = 6 \/ length init_dist <> 4 ->
   Polychora.init upper_triangle init_dist =
   BasePolytope.init upper_triangle init_dist).
Proof.
  unfold Polychora.init. split.
  - intros [H1 H2]. apply Nat.eqb_neq in H1. apply Nat.eqb_eq in H2.
    now rewrite H1, H2.
  - intros [H | H].
    + apply Nat.eqb_eq in H. now rewrite H.
    + apply Nat.eqb_neq in H. rewrite H. now rewrite andb_false_r.
Qed.

Lemma init_Ok (upper_triangle : list Z) (init_dist : list Dist) (self : polytope) :
  BasePolytope.init upper_triangle init_dist = Ok self ->
  get_coxeter_matrix upper_triangle = Ok (coxeter_matrix self) /\
  active self = map truth init_dist /\
  symmetry_gens self = seq 0 (length (coxeter_matrix self)) /\
  mapM (fun ij : nat * nat =>
          m <- coxeter_entry self (fst ij) (snd ij) ;;
          Ok (tuple_mul [fst ij; snd ij] m))
       (combinations2 (symmetry_gens self)) = Ok (symmetry_rels self) /\
  _vtable self = None /\ vertex_coords self = [] /\
  edge_indices self = [] /\ face_indices self = [].
Proof.
  unfold BasePolytope.init. intros H.
  inv_bind H. inv_bind H. inv_bind H. inv_bind H. inv_bind H.
  injection H as <-. simpl. repeat split. rewrite <- E3.
  apply mapM_ext. intros [i j]. unfold coxeter_entry. simpl.
  destruct (getitem x i); reflexivity.
Qed.

Lemma combinations2_seq (s n i j : nat) :
  In (i, j) (combinations2 (seq s n)) <-> s <= i /\ i < j /\ j < s + n.
Proof.
  revert s. induction n as [|n IH]; intros s; simpl.
  - split; [tauto | lia].
  - rewrite in_app_iff, in_map_iff, IH. split.
    + intros [[y [Hy Hin]] | H].
      * injection Hy as <- <-. apply in_seq in Hin. lia.
      * lia.
    + intros [H1 [H2 H3]]. destruct (Nat.eq_dec s i) as [-> | Hne].
      * left. exists j. split; [reflexivity |]. apply in_seq. lia.
      * right. lia.
Qed.

Lemma tuple_mul_not_square (a b i : nat) (m : Z) :
  a <> b -> tuple_mul [a; b] m <> [i; i].
Proof.
  intros Hab. unfold tuple_mul. destruct (Z.to_nat m) as [|k]; simpl.
  - discriminate.
  - intros H. injection H as H1 H2 _. congruence.
Qed.

Lemma Forall2_In_r {A B : Type} (R : A -> B -> Prop) (l : list A) (l' : list B) (y : B) :
  Forall2 R l l' -> In y l' -> exists x, In x l /\ R x y.
Proof.
  induction 1 as [|a b l l' Hab _ IH]; simpl.
  - tauto.
  - intros [<- | Hin].
    + exists a. auto.
    + destruct (IH Hin) as [x [Hx Hr]]. exists x. auto.
Qed.

(** C7: the 4D constructor's arity check does not fire on six matrix
    entries with three distances, nor on three matrix entries with three
    distances: the call goes on to the base constructor, whatever the
    collaborators are.  With the collaborators of [Box] the first call
    returns an object that has four mirrors and three active flags, and the
    second returns the object of a polyhedron. *)
Theorem C7_polychora_check_misses :
  (forall a b c : Dist,
     Polychora.init [5; 2; 2; 3; 2; 3]%Z [a; b; c] =
     BasePolytope.init [5; 2; 2; 3; 2; 3]%Z [a; b; c]) /\
  (forall a b c : Dist,
     Polychora.init [3; 2; 3]%Z [a; b; c] =
     BasePolytope.init [3; 2; 3]%Z [a; b; c]) /\
  (exists self,
     @Polychora.init Box.collaborators [5; 2; 2; 3; 2; 3]%Z [1; 0; 0]%Z = Ok self /\
     length (_mirrors self) = 4 /\ length (active self) = 3) /\
  (exists self,
     @Polychora.init Box.collaborators [3; 2; 3]%Z [1; 0; 0]%Z = Ok self /\
     length (_mirrors self) = 3 /\ length (active self) = 3).
Proof.
  split; [| split; [| split]].
  - intros a b c. reflexivity.
  - intros a b c. reflexivity.
  - eexists. split; [reflexivity |]. split; reflexivity.
  - eexists. split; [reflexivity |]. split; reflexivity.
Qed.

(** C8 (amended): the base constructor sets the generators to
    [0, ..., n-1], [n] the size of the Coxeter matrix, and the relations to
    the words [(i, j) * m[i][j]], one for each pair [i < j < n], in the order
    of the pairs; no relation is an involution relation [(i, i)].  The
    vertex stage hands these generators and relations to the enumeration
    and leaves its [coxeter] argument out. *)
Theorem C8_symmetry_presentation (upper_triangle : list Z) (init_dist : list Dist)
    (self : polytope) :
  BasePolytope.init upper_triangle init_dist = Ok self ->
  symmetry_gens self = seq 0 (length (coxeter_matrix self)) /\
  (forall i j, In (i, j) (combinations2 (symmetry_gens self)) <->
               i < j /\ j < length (coxeter_matrix self)) /\
  Forall2 (fun ij r =>
             exists m, coxeter_entry self (fst ij) (snd ij) = Ok m /\
                       r = tuple_mul [fst ij; snd ij] m)
          (combinations2 (symmetry_gens self)) (symmetry_rels self) /\
  (forall i, ~ In [i; i] (symmetry_rels self)) /\
  (forall self',
     BasePolytope.get_vertices self = Ok self' ->
     exists t,
       CosetTable_run (seq 0 (length (coxeter_matrix self))) (symmetry_rels self)
                      (Some (BasePolytope.vgens self)) None = Ok t).
Proof.
  intros H. apply init_Ok in H. destruct H as [_ [_ [Hg [Hr _]]]].
  assert (Hpairs : forall i j, In (i, j) (combinations2 (symmetry_gens self)) <->
                               i < j /\ j < length (coxeter_matrix self)).
  { intros i j. rewrite Hg, combinations2_seq. lia. }
  assert (Hrels : Forall2 (fun ij r =>
             exists m, coxeter_entry self (fst ij) (snd ij) = Ok m /\
                       r = tuple_mul [fst ij; snd ij] m)
          (combinations2 (symmetry_gens self)) (symmetry_rels self)).
  { apply mapM_Forall2 in Hr. eapply Forall2_impl; [| exact Hr].
    intros ij r Hij. inv_bind Hij. injection Hij as <-. eauto. }
  split; [assumption |]. split; [assumption |]. split; [assumption |]. split.
  - intros i Hin.
    destruct (Forall2_In_r _ _ _ _ Hrels Hin) as [[a b] [Hab [m [_ Heq]]]].
    apply Hpairs in Hab. simpl in Heq. symmetry in Heq.
    revert Heq. apply tuple_mul_not_square. lia.
  - intros self' Hv. apply get_vertices_Ok in Hv.
    destruct Hv as [t [_ [Hrun _]]]. exists t. now rewrite <- Hg.
Qed.

Lemma snub_init_Ok (upper_triangle : list Z) (init_dist : list Dist) (s : Snub.snub) :
  Snub.init upper_triangle init_dist = Ok s ->
  exists p q t,
    get_coxeter_matrix upper_triangle = Ok (coxeter_matrix (Snub.base s)) /\
    coxeter_entry (Snub.base s) 0 1 = Ok p /\
    coxeter_entry (Snub.base s) 1 2 = Ok q /\
    coxeter_entry (Snub.base s) 0 2 = Ok t /\
    symmetry_gens (Snub.base s) = [0; 1; 2; 3] /\
    symmetry_rels (Snub.base s) =
      [tuple_mul [0] p; tuple_mul [2] q; tuple_mul [0; 2] t; [0; 1]; [2; 3]] /\
    Snub.rotations s = [([0], p); ([2], q); ([0; 2], t)].
Proof.
  unfold Snub.init. intros H. inv_bind H.
  assert (Hcm : get_coxeter_matrix upper_triangle = Ok (coxeter_matrix x)).
  { unfold Polyhedra.init in E. destruct (negb _); [discriminate |].
    now apply init_Ok in E. }
  inv_bind H. inv_bind H. inv_bind H.
  change (coxeter_entry (set_presentation x [0; 1; 2; 3]
            [tuple_mul [0] x0; tuple_mul [2] x1; tuple_mul [0; 2] x2; [0; 1]; [2; 3]]))
    with (coxeter_entry x) in H.
  rewrite E0, E1, E2 in H. cbn [bind] in H. injection H as <-.
  exists x0, x1, x2. simpl. auto 10.
Qed.

(** C9 (amended): the snub constructor sets the generators to [0, 1, 2, 3]
    and the relations to [(0,) * p], [(2,) * q], [(0, 2) * t], [(0, 1)] and
    [(2, 3)], where [p = m[0][1]], [q = m[1][2]] and [t = m[0][2]] are
    entries of the Coxeter matrix; the third relation is [(0, 2, 0, 2)] when
    [t = 2].  Its vertex stage runs one enumeration of that presentation,
    with no subgroup generators and [coxeter=False], and [num_vertices] and
    the number of coordinates are the number of words it returns. *)
Theorem C9_snub_presentation (upper_triangle : list Z) (init_dist : list Dist)
    (s : Snub.snub) :
  Snub.init upper_triangle init_dist = Ok s ->
  exists p q t,
    coxeter_entry (Snub.base s) 0 1 = Ok p /\
    coxeter_entry (Snub.base s) 1 2 = Ok q /\
    coxeter_entry (Snub.base s) 0 2 = Ok t /\
    symmetry_gens (Snub.base s) = [0; 1; 2; 3] /\
    symmetry_rels (Snub.base s) =
      [tuple_mul [0] p; tuple_mul [2] q; tuple_mul [0; 2] t; [0; 1]; [2; 3]] /\
    (t = 2%Z -> nth_error (symmetry_rels (Snub.base s)) 2 = Some [0; 2; 0; 2]) /\
    (forall s',
       Snub.get_vertices s = Ok s' ->
       exists tbl,
         CosetTable_run [0; 1; 2; 3] (symmetry_rels (Snub.base s))
                        None (Some false) = Ok tbl /\
         num_vertices (Snub.base s') = Some (length (ct_words tbl)) /\
         length (vertex_coords (Snub.base s')) = length (ct_words tbl) /\
         Forall2 (fun w c =>
                    Snub._transform (Snub.base s) (init_v (Snub.base s)) w = Ok c)
                 (ct_words tbl) (vertex_coords (Snub.base s'))).
Proof.
  intros H. apply snub_init_Ok in H.
  destruct H as [p [q [t [_ [Hp [Hq [Ht [Hg [Hr _]]]]]]]]].
  exists p, q, t. repeat (split; [assumption |]). split.
  - intros ->. rewrite Hr. reflexivity.
  - intros s' Hv. unfold Snub.get_vertices in Hv. rewrite Hg in Hv.
    inv_bind Hv. inv_bind Hv. injection Hv as <-. exists x. simpl.
    split; [reflexivity |]. split; [reflexivity |]. split.
    + now apply mapM_length in E0.
    + now apply mapM_Forall2.
Qed.

(** C10: in the snub variant, with [r0], [r1], [r2] the three reflections,
    a word is realized letter by letter from the left: the symbol 0
    multiplies the point by [r0] and then by [r1], and every other symbol
    multiplies it by [r1] and then by [r2].  So the symbols 1, 2 and 3 are
    realized alike, and a word is realized as the word in which every
    symbol other than 0 is replaced by 2. *)
Theorem C10_snub_transform (self : polytope) (r0 r1 r2 : Mat) :
  nth_error (_reflections self) 0 = Some r0 ->
  nth_error (_reflections self) 1 = Some r1 ->
  nth_error (_reflections self) 2 = Some r2 ->
  (forall v w,
     Snub._transform self v w =
     Ok (fold_left (fun x g => if g =? 0 then dot (dot x r0) r1
                               else dot (dot x r1) r2) w v)) /\
  (forall v, Snub._transform self v [0] = Ok (dot (dot v r0) r1)) /\
  (forall v g, g <> 0 -> Snub._transform self v [g] = Ok (dot (dot v r1) r2)) /\
  (forall v w,
     Snub._transform self v w =
     Snub._transform self v (map (fun g => if g =? 0 then 0 else 2) w)).
Proof.
  intros H0 H1 H2. apply getitem_Ok in H0, H1, H2.
  assert (Hfold : forall w v,
     Snub._transform self v w =
     Ok (fold_left (fun x g => if g =? 0 then dot (dot x r0) r1
                               else dot (dot x r1) r2) w v)).
  { induction w as [|g w IH]; intros v; simpl.
    - reflexivity.
    - rewrite H0, H1, H2. simpl. destruct (g =? 0); apply IH. }
  split; [intros v w; apply Hfold |]. split; [| split].
  - intros v. now rewrite Hfold.
  - intros v g Hg. rewrite Hfold. simpl. apply Nat.eqb_neq in Hg. now rewrite Hg.
  - intros v w. rewrite !Hfold. f_equal. revert v.
    induction w as [|g w IH]; intros v; simpl; [reflexivity |].
    destruct (g =? 0); simpl; apply IH.
Qed.

End ConstructionProperties.

(** C8, as stated, fails: on the tetrahedral diagram (3, 2, 3) the relation
    list holds the three braid relations and no relation [(0, 0)]. *)
Lemma C8_no_involution_relation :
  exists self,
    @Polyhedra.init Box.collaborators [3; 2; 3]%Z [1; 0; 0]%Z = Ok self /\
    symmetry_gens self = [0; 1; 2] /\
    symmetry_rels self = [[0; 1; 0; 1; 0; 1]; [0; 2; 0; 2]; [1; 2; 1; 2; 1; 2]] /\
    ~ In [0; 0] (symmetry_rels self).
Proof.
  eexists. split; [reflexivity |]. split; [reflexivity |]. split; [reflexivity |].
  simpl. intros [H | [H | [H | []]]]; discriminate.
Qed.

(** C8 (amended) on the tetrahedral diagram. *)
Lemma C8_tetrahedral_presentation :
  exists self,
    @Polyhedra.init Box.collaborators [3; 2; 3]%Z [1; 0; 0]%Z = Ok self /\
    Forall2 (fun ij r =>
               exists m, coxeter_entry self (fst ij) (snd ij) = Ok m /\
                         r = tuple_mul [fst ij; snd ij] m)
            [(0, 1); (0, 2); (1, 2)] (symmetry_rels self) /\
    (forall i, ~ In [i; i] (symmetry_rels self)).
Proof.
  eexists. split; [reflexivity |].
  destruct (@C8_symmetry_presentation Box.collaborators
              [3; 2; 3]%Z [1; 0; 0]%Z _ eq_refl) as [_ [_ [Hrels [Hno _]]]].
  split; [exact Hrels | exact Hno].
Defined.

(** C9, as stated, fails: on the diagram (2, 3, 3), where [m[0][2] = 3], the
    third relation is [(0, 2) * 3] and the relation [(0, 2) * 2] is absent. *)
Lemma C9_rs_exponent_from_matrix :
  exists s,
    @Snub.init Box.collaborators [2; 3; 3]%Z [1; 1; 1]%Z = Ok s /\
    symmetry_rels (Snub.base s) =
      [[0; 0]; [2; 2; 2]; [0; 2; 0; 2; 0; 2]; [0; 1]; [2; 3]] /\
    ~ In [0; 2; 0; 2] (symmetry_rels (Snub.base s)).
Proof.
  eexists. split; [reflexivity |]. split; [reflexivity |].
  simpl. intros [H | [H | [H | [H | [H | []]]]]]; discriminate.
Qed.

(** C9 (amended) on the snub of the box. *)
Lemma C9_box_snub :
  symmetry_rels (Snub.base Box.snub0) = [[0; 0]; [2; 2]; [0; 2; 0; 2]; [0; 1]; [2; 3]] /\
  exists s' tbl,
    Snub.get_vertices Box.snub0 = Ok s' /\
    @CosetTable_run Box.collaborators [0; 1; 2; 3]
      (symmetry_rels (Snub.base Box.snub0)) None (Some false) = Ok tbl /\
    num_vertices (Snub.base s') = Some (length (ct_words tbl)) /\
    length (ct_words tbl) = 4.
Proof.
  destruct (@C9_snub_presentation Box.collaborators
              [2; 2; 2]%Z [1; 1; 1]%Z Box.snub0 eq_refl)
    as [p [q [t [Hp [Hq [Ht [Hg [Hr [_ Hv]]]]]]]]].
  split; [reflexivity |].
  destruct (@Snub.get_vertices Box.collaborators Box.snub0) as [s'|] eqn:E;
    [| discriminate].
  destruct (Hv s' eq_refl) as [tbl [Hrun [Hn [Hlen _]]]].
  exists s', tbl. split; [reflexivity |]. split; [assumption |].
  split; [assumption |].
  vm_compute in Hrun. injection Hrun as <-. reflexivity.
Defined.

(** C10 on the snub of the box: the symbols 1 and 3 apply the reflections
    1 and 2, as the symbol 2 does. *)
Lemma C10_box_snub_word :
  Snub._transform (Snub.base Box.snub0) (Box.Point []) [0; 1; 3]
    = Ok (Box.Point [0; 1; 1; 2; 1; 2]) /\
  Snub._transform (Snub.base Box.snub0) (Box.Point []) [0; 1; 3]
    = Snub._transform (Snub.base Box.snub0) (Box.Point []) [0; 2; 2].
Proof.
  destruct (@C10_snub_transform Box.collaborators (Snub.base Box.snub0) 0 1 2
              eq_refl eq_refl eq_refl) as [Hfold [_ [_ Hmap]]].
  split.
  - rewrite Hfold. reflexivity.
  - exact (Hmap (Box.Point []) [0; 1; 3]).
Defined.

(** ** Further properties of the stages *)

Section StageProperties.
Context {C : Collaborators}.

(** X4: the face stage reads the coordinates of a face from the vertex
    coordinate list, counts the faces it has collected, and leaves the
    vertex coordinates and the action table as they were. *)
Theorem get_faces_coordinates (self self' : polytope) :
  BasePolytope.get_faces self = Ok self' ->
  exists flists fcoords,
    face_indices self' = face_indices self ++ flists /\
    face_coords self' = face_coords self ++ fcoords /\
    Forall2 (Forall2 (Forall2 (fun x c => nth_error (vertex_coords self) x = Some c)))
            flists fcoords /\
    num_faces self' = Some (total_length (face_indices self')) /\
    vertex_coords self' = vertex_coords self /\
    _vtable self' = _vtable self.
Proof.
  intros H. apply get_faces_Ok in H. destruct H as [s1 [Hloop ->]].
  apply face_types_loop in Hloop. destruct Hloop as [Hb [fcs [Hi [Hc Hall]]]].
  unfold base_of in Hb. injection Hb as Et _ Ev _ _ _ _.
  exists (map fst fcs), (map snd fcs). simpl.
  split; [assumption |]. split; [assumption |]. split; [| auto].
  clear Hi Hc. induction Hall as [|ij fc l fcs [fgens [f0 [t [_ [_ [_ Hco]]]]]] _ IH];
    simpl; constructor; [| assumption].
  apply mapM_Forall2 in Hco. eapply Forall2_impl; [| exact Hco].
  intros f cs Hf. unfold BasePolytope.face_coord in Hf.
  apply mapM_Forall2 in Hf. eapply Forall2_impl; [| exact Hf].
  intros x c. apply getitem_Ok.
Qed.

Lemma snub_edge_loop (self : polytope) (v : nat) (ws : list word) :
  forall acc r,
    foldM (Snub.edge_step self (0, v)) ws acc = Ok r ->
    (forall e, In e acc -> In e r) /\
    (forall a b, In (a, b) r ->
       In (a, b) acc \/
       exists w, In w ws /\ _move self 0 w = Ok a /\ _move self v w = Ok b) /\
    (forall w, In w ws ->
       exists a b, _move self 0 w = Ok a /\ _move self v w = Ok b /\
                   (In (a, b) r \/ In (b, a) r)).
Proof.
  induction ws as [|w ws IH]; intros acc r H; simpl in H.
  - injection H as <-. repeat split; auto. intros w [].
  - inv_bind H. destruct (IH _ _ H) as [Hmono [Hfrom Hall]].
    unfold Snub.edge_step in E. simpl in E. inv_bind E. inv_bind E.
    assert (Hcase : ((In (x0, x1) acc \/ In (x1, x0) acc) /\ x = acc) \/
                    x = acc ++ [(x0, x1)]).
    { destruct (pair_in (x0, x1) acc) eqn:P1; simpl in E.
      - injection E as <-. left. split; [| reflexivity]. left. now apply pair_in_In.
      - destruct (pair_in (x1, x0) acc) eqn:P2; simpl in E; injection E as <-.
        + left. split; [| reflexivity]. right. now apply pair_in_In.
        + now right. }
    assert (Hsub : forall e, In e acc -> In e x).
    { intros e He. destruct Hcase as [[_ ->] | ->]; [assumption |].
      apply in_or_app. now left. }
    split; [auto |]. split.
    + intros a b Hab. destruct (Hfrom _ _ Hab) as [Hx | [w' [Hw' Hm]]].
      * destruct Hcase as [[_ ->] | ->]; [now left |].
        apply in_app_or in Hx. destruct Hx as [Hx | [Hx | []]]; [now left |].
        injection Hx as <- <-. right. exists w. split; [now left | auto].
      * right. exists w'. split; [now right | assumption].
    + intros w' [<- | Hw'].
      * exists x0, x1. split; [assumption |]. split; [assumption |].
        destruct Hcase as [[[Hin | Hin] ->] | ->].
        -- left. auto.
        -- right. auto.
        -- left. apply Hmono. apply in_or_app. right. now left.
      * now apply Hall.
Qed.

Lemma edges_of_base_ext (s1 s2 : polytope) (v : nat) (ws : list word)
    (elist : list (nat * nat)) :
  _vtable s1 = _vtable s2 ->
  edges_of_base s1 v ws elist -> edges_of_base s2 v ws elist.
Proof.
  intros E [H1 H2]. split.
  - intros a b Hab. destruct (H1 a b Hab) as [w [Hw [Ha Hb]]].
    exists w. rewrite <- (_move_ext s1 s2 0 w E), <- (_move_ext s1 s2 v w E). auto.
  - intros w Hw. destruct (H2 w Hw) as [a [b [Ha [Hb Hin]]]].
    exists a, b. rewrite <- (_move_ext s1 s2 0 w E), <- (_move_ext s1 s2 v w E). auto.
Qed.

Lemma snub_edge_types_loop (rots : list word) :
  forall self self',
    foldM Snub.edge_type_step rots self = Ok self' ->
    base_of self' = base_of self /\
    exists elists,
      edge_indices self' = edge_indices self ++ elists /\
      Forall2 (fun rot elist =>
                 exists v ws,
                   _move self 0 rot = Ok v /\ _vwords self = Some ws /\
                   edges_of_base self v ws elist)
              rots elists.
Proof.
  induction rots as [|rot rots IH]; intros self self' H; simpl in H.
  - injection H as <-. split; [reflexivity |]. exists [].
    rewrite app_nil_r. split; [reflexivity | constructor].
  - inv_bind H. destruct (IH _ _ H) as [Hb [elists [Hi Hall]]].
    unfold Snub.edge_type_step in E. inv_bind E. inv_bind E. inv_bind E. inv_bind E.
    injection E as <-. split; [rewrite Hb; reflexivity |].
    exists (x2 :: elists). simpl in Hi. rewrite <- app_assoc in Hi.
    split; [exact Hi |]. constructor.
    + exists x0, x1. split; [assumption |]. split.
      * unfold get_vwords in E1. destruct (_vwords self); [congruence | discriminate].
      * apply snub_edge_loop in E2. destruct E2 as [_ [Hfrom Hevery]]. split.
        -- intros a b Hab. destruct (Hfrom _ _ Hab) as [[] | Hw]. exact Hw.
        -- exact Hevery.
    + eapply Forall2_impl; [| exact Hall].
      intros rot' elist [v [ws [Hv [Hws Hedges]]]].
      exists v, ws. split; [| split; [exact Hws |]].
      * rewrite <- Hv. now apply _move_ext.
      * revert Hedges. now apply edges_of_base_ext.
Qed.

(** X5: in the snub variant the edge stage builds one edge type per key of
    [rotations], in the order of the keys: the base edge joins vertex 0 and
    its image under the key, every edge kept is the base edge moved by a
    word of the vertex stage, and every such word's edge is kept in one
    direction. *)
Theorem snub_edge_types (s s' : Snub.snub) :
  Snub.get_edges s = Ok s' ->
  exists elists,
    edge_indices (Snub.base s') = edge_indices (Snub.base s) ++ elists /\
    Forall2 (fun rot elist =>
               exists v ws,
                 _move (Snub.base s) 0 rot = Ok v /\
                 _vwords (Snub.base s) = Some ws /\
                 edges_of_base (Snub.base s) v ws elist)
            (map fst (Snub.rotations s)) elists /\
    num_edges (Snub.base s') = Some (total_length (edge_indices (Snub.base s'))) /\
    Snub.rotations s' = Snub.rotations s.
Proof.
  unfold Snub.get_edges. intros H. inv_bind H. injection H as <-. simpl.
  apply snub_edge_types_loop in E. destruct E as [_ [elists [Hi Hall]]].
  exists elists. auto.
Qed.

Lemma faces_of_base_ext (s1 s2 : polytope) (f0 : list nat) (ws : list word)
    (flist : list (list nat)) :
  _vtable s1 = _vtable s2 ->
  faces_of_base s1 f0 ws flist -> faces_of_base s2 f0 ws flist.
Proof.
  intros E [H1 H2].
  assert (Em : forall w, mapM (fun v => _move s2 v w) f0 = mapM (fun v => _move s1 v w) f0).
  { intros w. apply mapM_ext. intros v. symmetry. now apply _move_ext. }
  split.
  - intros f Hf. destruct (H1 f Hf) as [w [Hw Hm]]. exists w. rewrite Em. auto.
  - intros w Hw. destruct (H2 w Hw) as [f [g [Hm Hg]]]. exists f, g. rewrite Em. auto.
Qed.

Lemma snub_face_types_loop (os : list (list nat)) :
  forall self self',
    foldM Snub.face_type_step os self = Ok self' ->
    base_of self' = base_of self /\
    exists flists,
      face_indices self' = face_indices self ++ flists /\
      Forall2 (fun f0 flist =>
                 exists ws, _vwords self = Some ws /\ faces_of_base self f0 ws flist)
              os flists.
Proof.
  induction os as [|f0 os IH]; intros self self' H; simpl in H.
  - injection H as <-. split; [reflexivity |]. exists [].
    rewrite app_nil_r. split; [reflexivity | constructor].
  - inv_bind H. destruct (IH _ _ H) as [Hb [flists [Hi Hall]]].
    unfold Snub.face_type_step in E. inv_bind E. inv_bind E. inv_bind E.
    injection E as <-. split; [rewrite Hb; reflexivity |].
    exists (x1 :: flists). simpl in Hi. rewrite <- app_assoc in Hi.
    split; [exact Hi |]. constructor.
    + exists x0. split.
      * unfold get_vwords in E0. destruct (_vwords self); [congruence | discriminate].
      * apply face_loop in E1. destruct E1 as [_ [Hfrom [Hevery _]]]. split.
        -- intros f Hf. destruct (Hfrom _ Hf) as [[] | Hw]. exact Hw.
        -- exact Hevery.
    + eapply Forall2_impl; [| exact Hall].
      intros f0' flist [ws [Hws Hfaces]].
      exists ws. split; [exact Hws |]. revert Hfaces. now apply faces_of_base_ext.
Qed.

Lemma snub_orbits_Ok (s : Snub.snub) (os : list (list nat)) :
  Snub.orbits s = Ok os ->
  exists p q o0 o1 a b,
    Snub.rotations_getitem (Snub.rotations s) [0] = Ok p /\
    Snub.rotations_getitem (Snub.rotations s) [2] = Ok q /\
    Forall2 (fun k v => _move (Snub.base s) 0 (tuple_mul [0] (Z.of_nat k)) = Ok v)
            (range p) o0 /\
    Forall2 (fun k v => _move (Snub.base s) 0 (tuple_mul [2] (Z.of_nat k)) = Ok v)
            (range q) o1 /\
    _move (Snub.base s) 0 [2] = Ok a /\
    _move (Snub.base s) 0 [0; 2] = Ok b /\
    os = [o0; o1; [0; a; b]].
Proof.
  unfold Snub.orbits. intros H.
  inv_bind H. inv_bind H. inv_bind H. inv_bind H. inv_bind H. inv_bind H.
  injection H as <-. exists x, x1, x0, x2, x3, x4.
  apply mapM_Forall2 in E0, E2. auto 10.
Qed.

(** X6: in the snub variant the face stage builds three face types, from three
    base cycles: the images of vertex 0 under the powers [(0,) * k],
    [k < rotations[(0,)]]; the same for [(2,)]; and the triangle of vertex
    0 and its images under [(2,)] and [(0, 2)].  Every face kept is a base
    cycle moved by a word of the vertex stage, and every such word's face
    is, up to rotation and reversal, among the faces kept. *)
Theorem snub_face_types (s s' : Snub.snub) :
  Snub.get_faces s = Ok s' ->
  exists p q o0 o1 a b ws f1 f2 f3,
    Snub.rotations_getitem (Snub.rotations s) [0] = Ok p /\
    Snub.rotations_getitem (Snub.rotations s) [2] = Ok q /\
    Forall2 (fun k v => _move (Snub.base s) 0 (tuple_mul [0] (Z.of_nat k)) = Ok v)
            (range p) o0 /\
    Forall2 (fun k v => _move (Snub.base s) 0 (tuple_mul [2] (Z.of_nat k)) = Ok v)
            (range q) o1 /\
    _move (Snub.base s) 0 [2] = Ok a /\
    _move (Snub.base s) 0 [0; 2] = Ok b /\
    _vwords (Snub.base s) = Some ws /\
    face_indices (Snub.base s') = face_indices (Snub.base s) ++ [f1; f2; f3] /\
    faces_of_base (Snub.base s) o0 ws f1 /\
    faces_of_base (Snub.base s) o1 ws f2 /\
    faces_of_base (Snub.base s) [0; a; b] ws f3 /\
    num_faces (Snub.base s') = Some (total_length (face_indices (Snub.base s'))).
Proof.
  unfold Snub.get_faces. intros H. inv_bind H. inv_bind H. injection H as <-. simpl.
  apply snub_orbits_Ok in E.
  destruct E as [p [q [o0 [o1 [a [b [Hp [Hq [H0 [H1 [Ha [Hb ->]]]]]]]]]]]].
  apply snub_face_types_loop in E0. destruct E0 as [_ [flists [Hi Hall]]].
  inversion Hall as [|? f1 ? l1 [ws [Hws F1]] Hall1]; subst.
  inversion Hall1 as [|? f2 ? l2 [ws2 [Hws2 F2]] Hall2]; subst.
  inversion Hall2 as [|? f3 ? l3 [ws3 [Hws3 F3]] Hall3]; subst.
  inversion Hall3; subst.
  assert (ws2 = ws) by congruence. assert (ws3 = ws) by congruence. subst.
  exists p, q, o0, o1, a, b, ws, f1, f2, f3. auto 15.
Qed.

End StageProperties.

(** The 3D constructor refuses three integers with two distances. *)
Lemma Polyhedra_init_arity_example :
  @Polyhedra.init Box.collaborators [3; 2; 3]%Z [1; 0]%Z =
  Raise (ValueError "Three integers and three floats are required").
Proof.
  apply Polyhedra_init_arity. simpl. lia.
Defined.

(** The 4D constructor refuses five integers with four distances, and
    lets six integers with five distances through to the base constructor. *)
Lemma Polychora_init_check_example :
  @Polychora.init Box.collaborators [5; 2; 2; 3; 2]%Z [1; 0; 0; 0]%Z =
    Raise (ValueError "Six integers and four floats are required") /\
  @Polychora.init Box.collaborators [5; 2; 2; 3; 2; 3]%Z [1; 0; 0; 0; 0]%Z =
    @BasePolytope.init Box.collaborators [5; 2; 2; 3; 2; 3]%Z [1; 0; 0; 0; 0]%Z.
Proof.
  split.
  - apply (Polychora_init_check (C := Box.collaborators)). simpl. split; [lia | reflexivity].
  - apply (Polychora_init_check (C := Box.collaborators)). simpl. left. reflexivity.
Defined.

(** The face coordinates of the box are entries of its vertex coordinates. *)
Lemma get_faces_coordinates_box :
  exists flists fcoords,
    face_indices Box.slab3 = flists /\ face_coords Box.slab3 = fcoords /\
    Forall2 (Forall2 (Forall2
               (fun x c => nth_error (vertex_coords Box.slab2) x = Some c)))
            flists fcoords.
Proof.
  assert (H : BasePolytope.get_faces Box.slab2 = Ok Box.slab3)
    by (vm_compute; reflexivity).
  destruct (get_faces_coordinates Box.slab2 Box.slab3 H)
    as [flists [fcoords [Hi [Hc [Hall _]]]]].
  exists flists, fcoords. split; [exact Hi |]. split; [exact Hc | exact Hall].
Defined.

(** The snub of the box has three edge types, one per rotation. *)
Lemma snub_edge_types_box :
  exists elists,
    edge_indices (Snub.base Box.snub2) = elists /\
    Forall2 (fun rot elist =>
               exists v ws,
                 _move (Snub.base Box.snub1) 0 rot = Ok v /\
                 _vwords (Snub.base Box.snub1) = Some ws /\
                 edges_of_base (Snub.base Box.snub1) v ws elist)
            [[0]; [2]; [0; 2]] elists.
Proof.
  assert (H : Snub.get_edges Box.snub1 = Ok Box.snub2) by (vm_compute; reflexivity).
  destruct (snub_edge_types Box.snub1 Box.snub2 H) as [elists [Hi [Hall _]]].
  exists elists. split; [exact Hi | exact Hall].
Defined.

(** The snub of the box has three face types. *)
Lemma snub_face_types_box :
  exists f1 f2 f3, face_indices (Snub.base Box.snub3) = [f1; f2; f3].
Proof.
  assert (H : Snub.get_faces Box.snub2 = Ok Box.snub3) by (vm_compute; reflexivity).
  destruct (snub_face_types Box.snub2 Box.snub3 H)
    as [p [q [o0 [o1 [a [b [ws [f1 [f2 [f3 [_ [_ [_ [_ [_ [_ [_ [Hi _]]]]]]]]]]]]]]]]]].
  exists f1, f2, f3. exact Hi.
Defined.

(** ** Runs of the model

    The builders run on the concrete collaborators give the solids the
    diagrams are known for. *)

(** (2, 2, 2), all mirrors active: a box. *)
Example box_census :
  census Box.box = Some (Some 8, Some 12, Some 6, [[4; 4]; [4; 4]; [4; 4]]).
Proof. vm_compute. reflexivity. Qed.

(** (3, 2, 3) with distances (1, 0, 0): the tetrahedron. *)
Example tetrahedron_census :
  census (Solid.build [3; 2; 3]%Z [1; 0; 0]%Z)
  = Some (Some 4, Some 6, Some 4, [[3; 3; 3; 3]]).
Proof. vm_compute. reflexivity. Qed.

(** (4, 2, 3) with distances (1, 0, 0): the cube. *)
Example cube_census :
  census (Solid.build [4; 2; 3]%Z [1; 0; 0]%Z)
  = Some (Some 8, Some 12, Some 6, [[4; 4; 4; 4; 4; 4]]).
Proof. vm_compute. reflexivity. Qed.

(** (4, 2, 3) with distances (0, 0, 1): the octahedron. *)
Example octahedron_census :
  census (Solid.build [4; 2; 3]%Z [0; 0; 1]%Z)
  = Some (Some 6, Some 12, Some 8, [[3; 3; 3; 3; 3; 3; 3; 3]]).
Proof. vm_compute. reflexivity. Qed.

(** (4, 2, 3) with all mirrors active: 48 vertices, the order of the
    group; octagons, squares and hexagons. *)
Example truncated_cuboctahedron_census :
  census (Solid.build [4; 2; 3]%Z [1; 1; 1]%Z)
  = Some (Some 48, Some 72, Some 26,
          [[8; 8; 8; 8; 8; 8]; [4; 4; 4; 4; 4; 4; 4; 4; 4; 4; 4; 4];
           [6; 6; 6; 6; 6; 6; 6; 6]]).
Proof. vm_compute. reflexivity. Qed.

(** The snub of (3, 2, 3): 12 vertices, half the order of the group, and
    20 triangles. *)
Example snub_tetrahedron_census :
  census (Solid.build_snub [3; 2; 3]%Z [1; 1; 1]%Z)
  = Some (Some 12, Some 30, Some 20,
          [[3; 3; 3; 3]; [3; 3; 3; 3]; [3; 3; 3; 3; 3; 3; 3; 3; 3; 3; 3; 3]]).
Proof. vm_compute. reflexivity. Qed.

(** A diagram whose enumeration does not close is a failed construction:
    no stage returns an object. *)
Example unsupported_diagram_fails :
  census (Solid.build [7; 2; 3]%Z [1; 0; 0]%Z) = None.
Proof. vm_compute. reflexivity. Qed.

(** ** Running the stages again, and out of order *)

Section RerunProperties.
Context {C : Collaborators}.

Lemma transform_ext (s1 s2 : polytope) (v : Vec) (w : word) :
  _reflections s1 = _reflections s2 ->
  BasePolytope._transform s1 v w = BasePolytope._transform s2 v w.
Proof.
  intros E. revert v. induction w as [|g w IH]; intros v; simpl.
  - reflexivity.
  - rewrite E. destruct (getitem (_reflections s2) g); simpl; [apply IH | reflexivity].
Qed.

(** X7: the vertex stage can be run again: on the object it returned it
    returns that same object. *)
Theorem get_vertices_idempotent (self s1 : polytope) :
  BasePolytope.get_vertices self = Ok s1 ->
  BasePolytope.get_vertices s1 = Ok s1.
Proof.
  intros H. apply get_vertices_Ok in H.
  destruct H as [t [coords [Hrun [Hc ->]]]].
  unfold BasePolytope.get_vertices.
  change (BasePolytope.vgens (set_vertices self t (ct_words t) (length (ct_words t)) coords))
    with (BasePolytope.vgens self).
  cbn [symmetry_gens symmetry_rels set_vertices init_v].
  rewrite Hrun. cbn [bind].
  rewrite (mapM_ext _ (BasePolytope._transform self (init_v self)));
    [| intros w; now apply transform_ext].
  rewrite Hc. reflexivity.
Qed.

Lemma edge_type_step_frame (s1 s2 x1 : polytope) (ia : nat * bool) :
  base_of s1 = base_of s2 ->
  BasePolytope.edge_type_step s1 ia = Ok x1 ->
  exists x2 L M,
    BasePolytope.edge_type_step s2 ia = Ok x2 /\
    base_of x1 = base_of s1 /\ base_of x2 = base_of s2 /\
    edge_indices x1 = edge_indices s1 ++ L /\ edge_indices x2 = edge_indices s2 ++ L /\
    edge_coords x1 = edge_coords s1 ++ M /\ edge_coords x2 = edge_coords s2 ++ M.
Proof.
  intros Eb H. apply edge_type_step_Ok in H.
  destruct H as [[Ha ->] | [Ha [ec [Hec ->]]]].
  - exists s2, [], []. unfold BasePolytope.edge_type_step. rewrite Ha, !app_nil_r. auto 10.
  - apply (edge_type_built_ext s1 s2 _ _ Eb) in Hec.
    destruct Hec as [t [Hrun [Hloop Hc]]].
    exists (append_edges s2 (fst ec) (snd ec)), [fst ec], [snd ec].
    unfold BasePolytope.edge_type_step. rewrite Ha, Hrun. cbn [bind].
    rewrite Hloop. cbn [bind]. rewrite Hc. cbn [bind]. auto 10.
Qed.

Lemma edge_types_frame (l : list (nat * bool)) :
  forall s1 s2 x1,
    base_of s1 = base_of s2 ->
    foldM BasePolytope.edge_type_step l s1 = Ok x1 ->
    exists x2 L M,
      foldM BasePolytope.edge_type_step l s2 = Ok x2 /\
      base_of x1 = base_of s1 /\ base_of x2 = base_of s2 /\
      edge_indices x1 = edge_indices s1 ++ L /\ edge_indices x2 = edge_indices s2 ++ L /\
      edge_coords x1 = edge_coords s1 ++ M /\ edge_coords x2 = edge_coords s2 ++ M.
Proof.
  induction l as [|ia l IH]; intros s1 s2 x1 Eb H; simpl in H.
  - injection H as <-. exists s2, [], []. simpl. rewrite !app_nil_r. auto 10.
  - inv_bind H.
    destruct (edge_type_step_frame s1 s2 x ia Eb E)
      as [y [L0 [M0 [Hy [B1 [B2 [I1 [I2 [C1 C2]]]]]]]]].
    assert (Exy : base_of x = base_of y) by congruence.
    destruct (IH x y x1 Exy H) as [x2 [L [M [Hx2 [B3 [B4 [I3 [I4 [C3 C4]]]]]]]]].
    exists x2, (L0 ++ L), (M0 ++ M). simpl. rewrite Hy. cbn [bind].
    split; [assumption |]. split; [congruence |]. split; [congruence |].
    rewrite !app_assoc, <- I1, <- I2, <- C1, <- C2. auto.
Qed.

Lemma face_type_step_frame (s1 s2 x1 : polytope) (ij : nat * nat) :
  base_of s1 = base_of s2 ->
  BasePolytope.face_type_step s1 ij = Ok x1 ->
  exists x2 L M,
    BasePolytope.face_type_step s2 ij = Ok x2 /\
    base_of x1 = base_of s1 /\ base_of x2 = base_of s2 /\
    face_indices x1 = face_indices s1 ++ L /\ face_indices x2 = face_indices s2 ++ L /\
    face_coords x1 = face_coords s1 ++ M /\ face_coords x2 = face_coords s2 ++ M.
Proof.
  intros Eb H. unfold BasePolytope.face_type_step in H |- *.
  rewrite <- (face_setup_ext s1 s2 _ _ Eb).
  destruct (BasePolytope.face_setup s1 (fst ij) (snd ij)) as [[[fgens f0]|]|] eqn:Es;
    cbn [bind] in *; [| | discriminate].
  - inv_bind H. inv_bind H. inv_bind H. injection H as <-.
    assert (Hfc : face_type_built s1 ij (x0, x2)) by (exists fgens, f0, x; auto).
    apply (face_type_built_ext s1 s2 _ _ Eb) in Hfc.
    destruct Hfc as [fgens' [f0' [t [Hs [Hrun [Hloop Hc]]]]]].
    rewrite <- (face_setup_ext s1 s2 _ _ Eb), Es in Hs. injection Hs as <- <-.
    exists (append_faces s2 x0 x2), [x0], [x2].
    rewrite Hrun. cbn [bind]. simpl in Hloop, Hc.
    rewrite Hloop. cbn [bind]. rewrite Hc. cbn [bind]. auto 10.
  - injection H as <-. exists s2, [], []. rewrite !app_nil_r. auto 10.
Qed.

Lemma face_types_frame (l : list (nat * nat)) :
  forall s1 s2 x1,
    base_of s1 = base_of s2 ->
    foldM BasePolytope.face_type_step l s1 = Ok x1 ->
    exists x2 L M,
      foldM BasePolytope.face_type_step l s2 = Ok x2 /\
      base_of x1 = base_of s1 /\ base_of x2 = base_of s2 /\
      face_indices x1 = face_indices s1 ++ L /\ face_indices x2 = face_indices s2 ++ L /\
      face_coords x1 = face_coords s1 ++ M /\ face_coords x2 = face_coords s2 ++ M.
Proof.
  induction l as [|ij l IH]; intros s1 s2 x1 Eb H; simpl in H.
  - injection H as <-. exists s2, [], []. simpl. rewrite !app_nil_r. auto 10.
  - inv_bind H.
    destruct (face_type_step_frame s1 s2 x ij Eb E)
      as [y [L0 [M0 [Hy [B1 [B2 [I1 [I2 [C1 C2]]]]]]]]].
    assert (Exy : base_of x = base_of y) by congruence.
    destruct (IH x y x1 Exy H) as [x2 [L [M [Hx2 [B3 [B4 [I3 [I4 [C3 C4]]]]]]]]].
    exists x2, (L0 ++ L), (M0 ++ M). simpl. rewrite Hy. cbn [bind].
    split; [assumption |]. split; [congruence |]. split; [congruence |].
    rewrite !app_assoc, <- I1, <- I2, <- C1, <- C2. auto.
Qed.

Lemma edge_types_keep (l : list (nat * bool)) (self self' : polytope) :
  foldM BasePolytope.edge_type_step l self = Ok self' ->
  edge_frame self' = edge_frame self /\ num_edges self' = num_edges self.
Proof.
  apply (foldM_invariant
           (fun p => edge_frame p = edge_frame self /\ num_edges p = num_edges self)).
  - intros acc ia acc' _ [Hf Hn] Hstep. apply edge_type_step_Ok in Hstep.
    destruct Hstep as [[_ ->] | [_ [ec [_ ->]]]]; auto.
  - auto.
Qed.

Lemma face_types_keep (l : list (nat * nat)) (self self' : polytope) :
  foldM BasePolytope.face_type_step l self = Ok self' ->
  face_frame self' = face_frame self /\ num_faces self' = num_faces self.
Proof.
  apply (foldM_invariant
           (fun p => face_frame p = face_frame self /\ num_faces p = num_faces self)).
  - intros acc ij acc' _ [Hf Hn] Hstep. apply face_type_step_Ok in Hstep.
    destruct Hstep as [[_ ->] | [_ [fc [_ ->]]]]; auto.
  - auto.
Qed.

(** X8: each stage writes its own attributes and no others.  The vertex
    stage changes only the action table, the words, [num_vertices] and
    [vertex_coords]; the edge stage only [num_edges], [edge_indices] and
    [edge_coords]; the face stage only [num_faces], [face_indices] and
    [face_coords]. *)
Theorem stages_write_their_own_attributes (self self' : polytope) :
  (BasePolytope.get_vertices self = Ok self' ->
   (coxeter_matrix self', _mirrors self', _reflections self', init_v self',
    active self', symmetry_gens self', symmetry_rels self',
    num_edges self', edge_indices self', edge_coords self',
    num_faces self', face_indices self', face_coords self')
   = (coxeter_matrix self, _mirrors self, _reflections self, init_v self,
      active self, symmetry_gens self, symmetry_rels self,
      num_edges self, edge_indices self, edge_coords self,
      num_faces self, face_indices self, face_coords self)) /\
  (BasePolytope.get_edges self = Ok self' -> edge_frame self' = edge_frame self) /\
  (BasePolytope.get_faces self = Ok self' -> face_frame self' = face_frame self).
Proof.
  split; [| split].
  - intros H. apply get_vertices_Ok in H. destruct H as [t [coords [_ [_ ->]]]].
    reflexivity.
  - intros H. apply get_edges_Ok in H. destruct H as [s1 [Hloop ->]].
    apply edge_types_keep in Hloop. destruct Hloop as [Hf _]. exact Hf.
  - intros H. apply get_faces_Ok in H. destruct H as [s1 [Hloop ->]].
    apply face_types_keep in Hloop. destruct Hloop as [Hf _]. exact Hf.
Qed.

Lemma total_length_app {A : Type} (l1 l2 : list (list A)) :
  total_length (l1 ++ l2) = total_length l1 + total_length l2.
Proof.
  induction l1 as [|x l1 IH]; simpl; [reflexivity | rewrite IH; lia].
Qed.

Lemma get_vertices_same_inputs (s s' x : polytope) :
  symmetry_gens s' = symmetry_gens s -> symmetry_rels s' = symmetry_rels s ->
  active s' = active s -> init_v s' = init_v s -> _reflections s' = _reflections s ->
  BasePolytope.get_vertices s = Ok x ->
  exists t coords,
    x = set_vertices s t (ct_words t) (length (ct_words t)) coords /\
    BasePolytope.get_vertices s'
      = Ok (set_vertices s' t (ct_words t) (length (ct_words t)) coords).
Proof.
  intros Eg Er Ea Ev Erf H. apply get_vertices_Ok in H.
  destruct H as [t [coords [Hrun [Hc ->]]]]. exists t, coords.
  split; [reflexivity |].
  unfold BasePolytope.get_vertices, BasePolytope.vgens. rewrite Eg, Er, Ea, Ev.
  fold (BasePolytope.vgens s). rewrite Hrun. cbn [bind].
  rewrite (mapM_ext _ (BasePolytope._transform s (init_v s)));
    [| intros w; now apply transform_ext].
  rewrite Hc. reflexivity.
Qed.

(** X9: the edge and face stages append to the lists they find.  Running
    [build_geometry] again on the object it returned returns an object
    with the same vertices in which every edge type and every face type
    stands twice, and [num_edges] and [num_faces] count them twice. *)
Theorem build_geometry_twice (self s1 : polytope) :
  BasePolytope.build_geometry self = Ok s1 ->
  exists s2 EL FL,
    BasePolytope.build_geometry s1 = Ok s2 /\
    num_vertices s2 = num_vertices s1 /\
    vertex_coords s2 = vertex_coords s1 /\
    edge_indices s1 = edge_indices self ++ EL /\
    edge_indices s2 = edge_indices self ++ EL ++ EL /\
    face_indices s1 = face_indices self ++ FL /\
    face_indices s2 = face_indices self ++ FL ++ FL /\
    num_edges s2 = Some (total_length (edge_indices self) + 2 * total_length EL) /\
    num_faces s2 = Some (total_length (face_indices self) + 2 * total_length FL).
Proof.
  unfold BasePolytope.build_geometry. intros H. inv_bind H. inv_bind H.
  rename x into a, x0 into b, E into Hv, E0 into He.
  apply get_edges_Ok in He. destruct He as [b0 [Hel ->]].
  apply get_faces_Ok in H. destruct H as [c0 [Hfl ->]].
  destruct (edge_types_keep _ _ _ Hel) as [Kb0 _].
  destruct (face_types_keep _ _ _ Hfl) as [Kc0 _].
  unfold edge_frame in Kb0. unfold face_frame in Kc0.
  injection Kb0 as ? ? ? ? ? ? ? ? ? ? ? ? ? ?.
  injection Kc0 as ? ? ? ? ? ? ? ? ? ? ? ? ? ?.
  pose proof Hv as Hv'. apply get_vertices_Ok in Hv'.
  destruct Hv' as [t0 [coords0 [_ [_ Ha]]]].
  assert (Ia : symmetry_gens a = symmetry_gens self /\ symmetry_rels a = symmetry_rels self /\
               active a = active self /\ init_v a = init_v self /\
               _reflections a = _reflections self /\
               edge_indices a = edge_indices self /\ face_indices a = face_indices self /\
               coxeter_matrix a = coxeter_matrix self)
    by (subst a; repeat split).
  clear Ha. destruct Ia as [Ia1 [Ia2 [Ia3 [Ia4 [Ia5 [Ia6 [Ia7 Ia8]]]]]]].
  read_attributes.
  destruct (get_vertices_same_inputs self
              (set_num_faces c0 (total_length (face_indices c0))) a)
    as [t [coords [Ea Hv2]]]; try (read_attributes; congruence).
  assert (Na : num_vertices a = Some (length (ct_words t)) /\ vertex_coords a = coords)
    by (rewrite Ea; split; reflexivity).
  destruct Na as [Na1 Na2].
  rewrite Hv2. cbn [bind].
  assert (Eb : base_of a
               = base_of (set_vertices (set_num_faces c0 (total_length (face_indices c0)))
                                       t (ct_words t) (length (ct_words t)) coords)).
  { rewrite Ea. unfold base_of. read_attributes. congruence. }
  destruct (edge_types_frame _ a _ b0 Eb Hel)
    as [x2 [EL [M [Hx2 [B1 [B2 [I1 [I2 _]]]]]]]].
  destruct (edge_types_keep _ _ _ Hx2) as [Kx2 _].
  unfold edge_frame in Kx2. injection Kx2 as ? ? ? ? ? ? ? ? ? ? ? ? ? ?.
  read_attributes.
  assert (Eb2 : base_of (set_num_edges b0 (total_length (edge_indices b0)))
                = base_of (set_num_edges x2 (total_length (edge_indices x2)))).
  { unfold base_of in *. read_attributes. congruence. }
  destruct (face_types_frame _ _ _ c0 Eb2 Hfl)
    as [y2 [FL [N [Hy2 [B3 [B4 [J1 [J2 _]]]]]]]].
  destruct (face_types_keep _ _ _ Hy2) as [Ky2 _].
  unfold face_frame in Ky2. injection Ky2 as ? ? ? ? ? ? ? ? ? ? ? ? ? ?.
  read_attributes.
  exists (set_num_faces y2 (total_length (face_indices y2))), EL, FL.
  assert (Ee1 : edge_indices c0 = edge_indices self ++ EL) by congruence.
  assert (Ef1 : face_indices c0 = face_indices self ++ FL) by congruence.
  assert (Ee2 : edge_indices y2 = edge_indices self ++ EL ++ EL)
    by (rewrite app_assoc; congruence).
  assert (Ef2 : face_indices y2 = face_indices self ++ FL ++ FL)
    by (rewrite app_assoc; congruence).
  split.
  - unfold BasePolytope.get_edges. read_attributes.
    replace (active c0) with (active a) by congruence.
    rewrite Hx2. cbn [bind].
    unfold BasePolytope.get_faces. read_attributes.
    replace (symmetry_gens x2) with (symmetry_gens b0) by congruence.
    rewrite Hy2. reflexivity.
  - repeat split; try assumption; read_attributes; try congruence.
    + replace (num_edges y2) with (Some (total_length (edge_indices x2))) by congruence.
      f_equal. replace (edge_indices x2) with (edge_indices y2) by congruence.
      rewrite Ee2, !total_length_app. lia.
    + rewrite Ef2, !total_length_app. f_equal. lia.
Qed.

Lemma Forall2_In_l {A B : Type} (R : A -> B -> Prop) (l : list A) (l' : list B) (x : A) :
  Forall2 R l l' -> In x l -> exists y, In y l' /\ R x y.
Proof.
  induction 1 as [|a b l l' Hab _ IH]; simpl.
  - tauto.
  - intros [<- | Hin].
    + exists b. auto.
    + destruct (IH Hin) as [y [Hy Hr]]. exists y. auto.
Qed.

Lemma edge_type_built_in_range (self : polytope) (i : nat)
    (ec : list (nat * nat) * list (Vec * Vec)) (e : nat * nat) :
  edge_type_built self i ec -> In e (fst ec) ->
  fst e < length (vertex_coords self) /\ snd e < length (vertex_coords self).
Proof.
  intros [t [_ [_ Hc]]] Hin. apply mapM_Forall2 in Hc.
  destruct (Forall2_In_l _ _ _ _ Hc Hin) as [c [_ Hec]].
  apply edge_coord_Ok in Hec. destruct Hec as [H1 H2].
  split; apply nth_error_Some; congruence.
Qed.

Lemma face_type_built_in_range (self : polytope) (ij : nat * nat)
    (fc : list (list nat) * list (list Vec)) (f : list nat) (x : nat) :
  face_type_built self ij fc -> In f (fst fc) -> In x f ->
  x < length (vertex_coords self).
Proof.
  intros [fgens [f0 [t [_ [_ [_ Hc]]]]]] Hf Hx. apply mapM_Forall2 in Hc.
  destruct (Forall2_In_l _ _ _ _ Hc Hf) as [cs [_ Hfc]].
  unfold BasePolytope.face_coord in Hfc. apply mapM_Forall2 in Hfc.
  destruct (Forall2_In_l _ _ _ _ Hfc Hx) as [c [_ Hxc]].
  apply getitem_Ok in Hxc. apply nth_error_Some. congruence.
Qed.

(** What the constructor leaves in the attributes computed later. *)
Lemma init_fresh (upper_triangle : list Z) (init_dist : list Dist) (self : polytope) :
  BasePolytope.init upper_triangle init_dist = Ok self ->
  _vtable self = None /\ _vwords self = None /\
  edge_indices self = [] /\ edge_coords self = [] /\
  face_indices self = [] /\ face_coords self = [].
Proof.
  unfold BasePolytope.init. intros H.
  inv_bind H. inv_bind H. inv_bind H. inv_bind H. inv_bind H.
  injection H as <-. repeat split.
Qed.

(** X10: in the object that [build_geometry] returns for a freshly
    constructed object, [num_vertices] is the number of vertex coordinates,
    every end of every edge and every corner of every face is the index of
    a vertex, and there is one coordinate list per edge type and per face
    type. *)
Theorem built_indices_name_vertices (upper_triangle : list Z) (init_dist : list Dist)
    (self self' : polytope) :
  BasePolytope.init upper_triangle init_dist = Ok self ->
  BasePolytope.build_geometry self = Ok self' ->
  exists n,
    num_vertices self' = Some n /\
    length (vertex_coords self') = n /\
    (forall elist e, In elist (edge_indices self') -> In e elist ->
                     fst e < n /\ snd e < n) /\
    (forall flist f x, In flist (face_indices self') -> In f flist -> In x f ->
                       x < n) /\
    length (edge_coords self') = length (edge_indices self') /\
    length (face_coords self') = length (face_indices self').
Proof.
  intros Hinit H. apply init_fresh in Hinit.
  destruct Hinit as [_ [_ [Hei [Hec [Hfi Hfc]]]]].
  unfold BasePolytope.build_geometry in H. inv_bind H. inv_bind H.
  rename x into a, x0 into b, E into Hv, E0 into He.
  apply get_vertices_Ok in Hv. destruct Hv as [t [coords [_ [Hc Ea]]]].
  apply mapM_length in Hc.
  apply get_edges_Ok in He. destruct He as [b0 [Hel ->]].
  apply get_faces_Ok in H. destruct H as [c0 [Hfl ->]].
  destruct (edge_types_keep _ _ _ Hel) as [Kb0 _].
  destruct (face_types_keep _ _ _ Hfl) as [Kc0 _].
  apply edge_types_loop in Hel. destruct Hel as [_ [_ [ecs [Ie [Ic Hecs]]]]].
  apply face_types_loop in Hfl. destruct Hfl as [_ [fcs [If [Ifc Hfcs]]]].
  unfold edge_frame in Kb0. unfold face_frame in Kc0.
  injection Kb0 as ? ? ? ? ? ? ? ? ? ? ? ? ? ?.
  injection Kc0 as ? ? ? ? ? ? ? ? ? ? ? ? ? ?.
  assert (Ia : num_vertices a = Some (length (ct_words t)) /\ vertex_coords a = coords /\
               edge_indices a = edge_indices self /\ edge_coords a = edge_coords self /\
               face_indices a = face_indices self /\ face_coords a = face_coords self)
    by (rewrite Ea; repeat split).
  clear Ea. destruct Ia as [Ia1 [Ia2 [Ia3 [Ia4 [Ia5 Ia6]]]]].
  read_attributes.
  assert (Eei : edge_indices c0 = map fst ecs).
  { rewrite Ia3, Hei in Ie. simpl in Ie. congruence. }
  assert (Eec : edge_coords c0 = map snd ecs).
  { rewrite Ia4, Hec in Ic. simpl in Ic. congruence. }
  assert (Efi : face_indices c0 = map fst fcs).
  { rewrite If. replace (face_indices b0) with (@nil (list (list nat))) by congruence.
    reflexivity. }
  assert (Efc : face_coords c0 = map snd fcs).
  { rewrite Ifc. replace (face_coords b0) with (@nil (list (list Vec))) by congruence.
    reflexivity. }
  exists (length (ct_words t)).
  split; [congruence |]. split; [congruence |]. split; [| split; [| split]].
  - intros elist e Hel He. rewrite Eei in Hel.
    apply in_map_iff in Hel. destruct Hel as [ec [<- Hec']].
    destruct (Forall2_In_r _ _ _ _ Hecs Hec') as [i [_ Hb]].
    destruct (edge_type_built_in_range a i ec e Hb He) as [L1 L2].
    rewrite Ia2, Hc in L1, L2. auto.
  - intros flist f x Hfl Hf Hx. rewrite Efi in Hfl.
    apply in_map_iff in Hfl. destruct Hfl as [fc [<- Hfc']].
    destruct (Forall2_In_r _ _ _ _ Hfcs Hfc') as [ij [_ Hb]].
    pose proof (face_type_built_in_range _ ij fc f x Hb Hf Hx) as L.
    read_attributes. replace (vertex_coords b0) with coords in L by congruence.
    now rewrite Hc in L.
  - now rewrite Eei, Eec, !length_map.
  - now rewrite Efi, Efc, !length_map.
Qed.



(** X12: the snub variant realizes a word as the base class realizes the
    word of reflections in which the symbol 0 is replaced by [(0, 1)] and
    every other symbol by [(1, 2)]; the two calls raise alike. *)
Theorem snub_transform_expands (self : polytope) (v : Vec) (w : word) :
  Snub._transform self v w =
  BasePolytope._transform self v
    (flat_map (fun g => if g =? 0 then [0; 1] else [1; 2]) w).
Proof.
  revert v. induction w as [|g w IH]; intros v.
  - reflexivity.
  - cbn [flat_map Snub._transform]. destruct (g =? 0); cbn [app BasePolytope._transform].
    + destruct (getitem (_reflections self) 0); cbn [bind]; [| reflexivity].
      destruct (getitem (_reflections self) 1); cbn [bind]; [apply IH | reflexivity].
    + destruct (getitem (_reflections self) 1); cbn [bind]; [| reflexivity].
      destruct (getitem (_reflections self) 2); cbn [bind]; [apply IH | reflexivity].
Qed.

Lemma _move_no_table (self : polytope) (v : nat) (w : word) :
  _vtable self = None ->
  _move self v w = match w with [] => Ok v | _ :: _ => Raise TypeError end.
Proof.
  intros E. destruct w as [|g w]; simpl; [reflexivity |].
  unfold vtable_lookup. now rewrite E.
Qed.

Lemma mapM_Ok_or {A B : Type} (f : A -> result B) (l : list A) (e : exn) :
  (forall x, In x l -> (exists y, f x = Ok y) \/ f x = Raise e) ->
  (exists ys, mapM f l = Ok ys) \/ mapM f l = Raise e.
Proof.
  induction l as [|x l IH]; intros H; simpl.
  - left. eauto.
  - destruct (H x (or_introl eq_refl)) as [[y Hy] | Hx].
    + rewrite Hy. cbn [bind].
      destruct IH as [[ys Hys] | Hr]; [intros; apply H; now right | |].
      * rewrite Hys. left. simpl. eauto.
      * rewrite Hr. now right.
    + rewrite Hx. now right.
Qed.

(** X13: the stages of a snub cannot be run before its vertex stage: on a
    freshly constructed snub, [_move] returns the vertex for the empty word
    and raises [TypeError] for any other, and the edge stage and the face
    stage raise [TypeError]. *)
Theorem snub_stages_need_vertices (upper_triangle : list Z) (init_dist : list Dist)
    (s : Snub.snub) :
  Snub.init upper_triangle init_dist = Ok s ->
  (forall v w, _move (Snub.base s) v w
               = match w with [] => Ok v | _ :: _ => Raise TypeError end) /\
  Snub.get_edges s = Raise TypeError /\
  Snub.get_faces s = Raise TypeError.
Proof.
  intros H.
  assert (Hnone : _vtable (Snub.base s) = None).
  { unfold Snub.init in H. inv_bind H. unfold Polyhedra.init in E.
    destruct (negb _); [discriminate |]. apply init_fresh in E.
    destruct E as [Et _]. inv_bind H. inv_bind H. inv_bind H. inv_bind H.
    inv_bind H. inv_bind H. injection H as <-. exact Et. }
  apply snub_init_Ok in H.
  destruct H as [p [q [t [_ [_ [_ [_ [_ [_ Hrot]]]]]]]]].
  assert (Hmove : forall v w, _move (Snub.base s) v w
               = match w with [] => Ok v | _ :: _ => Raise TypeError end)
    by (intros; now apply _move_no_table).
  split; [exact Hmove |]. split.
  - unfold Snub.get_edges. rewrite Hrot. cbn [map fst foldM].
    unfold Snub.edge_type_step at 1. rewrite Hmove. reflexivity.
  - unfold Snub.get_faces, Snub.orbits. rewrite Hrot.
    cbn [Snub.rotations_getitem list_eqb Nat.eqb andb bind].
    destruct (mapM_Ok_or (fun k => _move (Snub.base s) 0 (tuple_mul [0] (Z.of_nat k)))
                (range p) TypeError) as [[o0 H0] | H0].
    { intros k _. rewrite Hmove. destruct (tuple_mul [0] (Z.of_nat k)); eauto. }
    2: { rewrite H0. reflexivity. }
    rewrite H0. cbn [bind].
    destruct (mapM_Ok_or (fun k => _move (Snub.base s) 0 (tuple_mul [2] (Z.of_nat k)))
                (range q) TypeError) as [[o1 H1] | H1].
    { intros k _. rewrite Hmove. destruct (tuple_mul [2] (Z.of_nat k)); eauto. }
    2: { rewrite H1. reflexivity. }
    rewrite H1. cbn [bind]. rewrite Hmove. reflexivity.
Qed.

Lemma foldM_skip {A S : Type} (body : S -> A -> result S) (l : list A) (acc : S) :
  (forall x, In x l -> body acc x = Ok acc) -> foldM body l acc = Ok acc.
Proof.
  induction l as [|x l IH]; intros H; simpl.
  - reflexivity.
  - rewrite (H x (or_introl eq_refl)). cbn [bind]. apply IH.
    intros y Hy. apply H. now right.
Qed.

Lemma combinations2_In {A : Type} (l : list A) (x y : A) :
  In (x, y) (combinations2 l) -> In x l /\ In y l.
Proof.
  induction l as [|a l IH]; simpl; [tauto |].
  rewrite in_app_iff, in_map_iff. intros [[z [Hz Hin]] | H].
  - injection Hz as <- <-. auto.
  - destruct (IH H). auto.
Qed.

(** X14: when no mirror is active, the edge stage adds no edge type, and
    the face stage, when every generator has an active flag, adds no face
    type; both return, also before the vertex stage has run, and the
    counts are those of the lists as they were. *)
Theorem no_active_mirror (self : polytope) :
  (forall b, In b (active self) -> b = false) ->
  BasePolytope.get_edges self
    = Ok (set_num_edges self (total_length (edge_indices self))) /\
  (Forall (fun g => g < length (active self)) (symmetry_gens self) ->
   BasePolytope.get_faces self
     = Ok (set_num_faces self (total_length (face_indices self)))).
Proof.
  intros Hoff. split.
  - unfold BasePolytope.get_edges. rewrite foldM_skip; [reflexivity |].
    intros [i a] Hin. apply enumerate_In in Hin. apply nth_error_In in Hin.
    apply Hoff in Hin. subst a. reflexivity.
  - intros Hran. unfold BasePolytope.get_faces. rewrite foldM_skip; [reflexivity |].
    intros [i j] Hin. apply combinations2_In in Hin. destruct Hin as [Hi Hj].
    rewrite Forall_forall in Hran.
    assert (Ai : getitem (active self) i = Ok false).
    { apply Hran in Hi. apply nth_error_Some in Hi.
      destruct (nth_error (active self) i) as [a|] eqn:E; [| congruence].
      apply getitem_Ok. rewrite E. f_equal. apply Hoff.
      eapply nth_error_In; eassumption. }
    assert (Aj : getitem (active self) j = Ok false).
    { apply Hran in Hj. apply nth_error_Some in Hj.
      destruct (nth_error (active self) j) as [a|] eqn:E; [| congruence].
      apply getitem_Ok. rewrite E. f_equal. apply Hoff.
      eapply nth_error_In; eassumption. }
    unfold BasePolytope.face_type_step, BasePolytope.face_setup.
    cbn [fst snd]. rewrite Ai, Aj. reflexivity.
Qed.

End RerunProperties.

(** ** Words in LaTeX *)

Lemma append_assoc (a b c : string) :
  ((a ++ b) ++ c)%string = (a ++ (b ++ c))%string.
Proof.
  induction a as [|x a IH]; simpl; [reflexivity | now rewrite IH].
Qed.

Lemma append_empty_r (a : string) : (a ++ "")%string = a.
Proof.
  induction a as [|x a IH]; simpl; [reflexivity | now rewrite IH].
Qed.

Lemma concat_empty_cons (x : string) (xs : list string) :
  String.concat "" (x :: xs) = (x ++ String.concat "" xs)%string.
Proof.
  destruct xs as [|y ys]; simpl; [now rewrite append_empty_r | reflexivity].
Qed.

Lemma enumerate_map_from {A B : Type} (f : A -> B) (l : list A) (s : nat) :
  combine (seq s (length (map f l))) (map f l)
  = map (fun iw : nat * A => (fst iw, f (snd iw))) (combine (seq s (length l)) l).
Proof.
  revert s. induction l as [|x l IH]; intros s; simpl; [reflexivity |].
  now rewrite IH.
Qed.

Section LatexProperties.
Context {C : Collaborators}.

Lemma repr_loop_cells (symbol : string) (cols : Z) (snub : bool)
    (iws : list (nat * word)) (latex : string) :
  cols <> 0%Z ->
  repr_loop symbol cols snub iws latex
  = Repr (latex ++ String.concat "" (map (latex_cell symbol cols snub) iws))%string.
Proof.
  intros Hc. apply Z.eqb_neq in Hc. revert latex.
  induction iws as [|[i w] iws IH]; intros latex.
  - simpl. now rewrite append_empty_r.
  - cbn [repr_loop map]. rewrite Hc, andb_false_r, IH, concat_empty_cons.
    unfold latex_cell. cbn [fst snd].
    destruct ((0 <? i) && (Z.of_nat i mod cols =? 0)%Z);
      destruct (Z.of_nat i mod cols =? cols - 1)%Z; cbn [negb];
      rewrite ?append_assoc, ?append_empty_r; reflexivity.
Qed.

(** X15: [get_word_representations] raises [AttributeError] on an object
    whose vertex stage has not run.  After it, the call raises
    [ZeroDivisionError] exactly when [cols] is 0 and there is at least one
    word, and raises nothing else. *)
Theorem word_representations_errors (self : polytope) (symbol : string) (cols : Z)
    (snub : bool) :
  (_vwords self = None ->
   BasePolytope.get_word_representations self symbol cols snub
   = ReprRaise AttributeError) /\
  (forall ws, _vwords self = Some ws ->
     (BasePolytope.get_word_representations self symbol cols snub = ZeroDivisionError
      <-> cols = 0%Z /\ ws <> []) /\
     (forall e, BasePolytope.get_word_representations self symbol cols snub
                <> ReprRaise e)).
Proof.
  unfold BasePolytope.get_word_representations. split.
  - intros ->. reflexivity.
  - intros ws ->. destruct (Z.eq_dec cols 0) as [-> | Hc].
    + destruct ws as [|w ws].
      * simpl. split; [| discriminate]. split; [discriminate |].
        intros [_ H]. now contradiction H.
      * simpl. split; [| discriminate]. split; [| reflexivity].
        intros _. split; [reflexivity | discriminate].
    + rewrite (repr_loop_cells _ _ _ _ _ Hc). split; [| discriminate].
      split; [discriminate | intros [H _]; contradiction].
Qed.

(** X16: for [cols] other than 0 the string returned is the array header
    with [cols] times the letter l, then one cell per word in order, then
    the footer.  A cell is the word, after a row break when its index is a
    positive multiple of [cols], and before a separator unless its index
    is [cols - 1] modulo [cols]; so the last word of the array is followed
    by a separator when the number of words is not a multiple of [cols]. *)
Theorem word_representations_cells (self : polytope) (symbol : string) (cols : Z)
    (snub : bool) (ws : list word) :
  _vwords self = Some ws -> cols <> 0%Z ->
  BasePolytope.get_word_representations self symbol cols snub
  = Repr ("\begin{array}{" ++ str_mul "l" cols ++ "}"
          ++ String.concat "" (map (latex_cell symbol cols snub) (enumerate ws))
          ++ "\end{array}")%string.
Proof.
  intros Hws Hc. unfold BasePolytope.get_word_representations.
  rewrite Hws, (repr_loop_cells _ _ _ _ _ Hc). reflexivity.
Qed.

Lemma to_latex_halves (symbol : string) (w : word) :
  to_latex symbol true w = to_latex symbol false (map (fun i => i / 2) w).
Proof.
  destruct w as [|g w]; [reflexivity |].
  cbn [to_latex map]. f_equal. cbn [map]. f_equal. now rewrite map_map.
Qed.

Lemma repr_loop_halves (symbol : string) (cols : Z) (iws : list (nat * word))
    (latex : string) :
  repr_loop symbol cols true iws latex
  = repr_loop symbol cols false
      (map (fun iw : nat * word => (fst iw, map (fun i => i / 2) (snd iw))) iws) latex.
Proof.
  revert latex. induction iws as [|[i w] iws IH]; intros latex; [reflexivity |].
  cbn [repr_loop map fst snd]. rewrite to_latex_halves.
  destruct ((0 <? i) && (cols =? 0)%Z); [reflexivity |].
  destruct (cols =? 0)%Z; [reflexivity |]. apply IH.
Qed.

(** X17: with [snub] set, the words are printed as the words in which
    every symbol is halved are printed without it: the symbols 0 and 1
    both print with index 0, the symbols 2 and 3 both with index 1. *)
Theorem word_representations_snub (s1 s2 : polytope) (symbol : string) (cols : Z)
    (ws : list word) :
  _vwords s1 = Some ws ->
  _vwords s2 = Some (map (map (fun i => i / 2)) ws) ->
  BasePolytope.get_word_representations s1 symbol cols true
  = BasePolytope.get_word_representations s2 symbol cols false.
Proof.
  intros H1 H2. unfold BasePolytope.get_word_representations.
  rewrite H1, H2, repr_loop_halves. unfold enumerate.
  now rewrite enumerate_map_from.
Qed.

End LatexProperties.

(** ** The geometry of a snub *)

Section SnubGeometry.
Context {C : Collaborators}.

Lemma edge_coords_in_range (self : polytope) (elist : list (nat * nat))
    (ecoords : list (Vec * Vec)) (e : nat * nat) :
  mapM (BasePolytope.edge_coord self) elist = Ok ecoords -> In e elist ->
  fst e < length (vertex_coords self) /\ snd e < length (vertex_coords self).
Proof.
  intros Hc Hin. apply mapM_Forall2 in Hc.
  destruct (Forall2_In_l _ _ _ _ Hc Hin) as [c [_ Hec]].
  apply edge_coord_Ok in Hec. destruct Hec as [H1 H2].
  split; apply nth_error_Some; congruence.
Qed.

Lemma face_coords_in_range (self : polytope) (flist : list (list nat))
    (fcoords : list (list Vec)) (f : list nat) (x : nat) :
  mapM (BasePolytope.face_coord self) flist = Ok fcoords -> In f flist -> In x f ->
  x < length (vertex_coords self).
Proof.
  intros Hc Hf Hx. apply mapM_Forall2 in Hc.
  destruct (Forall2_In_l _ _ _ _ Hc Hf) as [cs [_ Hfc]].
  unfold BasePolytope.face_coord in Hfc. apply mapM_Forall2 in Hfc.
  destruct (Forall2_In_l _ _ _ _ Hfc Hx) as [c [_ Hxc]].
  apply getitem_Ok in Hxc. apply nth_error_Some. congruence.
Qed.

Lemma snub_edge_type_step_range (n : nat) (self self' : polytope) (rot : word) :
  indices_name_vertices self n ->
  Snub.edge_type_step self rot = Ok self' ->
  indices_name_vertices self' n.
Proof.
  intros [Hn [He [Hf [Le Lf]]]] H. unfold Snub.edge_type_step in H.
  inv_bind H. inv_bind H. inv_bind H. inv_bind H. injection H as <-.
  unfold indices_name_vertices. read_attributes.
  split; [assumption |]. split; [| split; [assumption | split; [| assumption]]].
  - intros elist e Hel Hin. apply in_app_or in Hel.
    destruct Hel as [Hel | [<- | []]]; [now apply (He elist) |].
    rewrite <- Hn. now apply (edge_coords_in_range self x1 x2).
  - rewrite !length_app, Le. reflexivity.
Qed.

Lemma snub_face_type_step_range (n : nat) (self self' : polytope) (f0 : list nat) :
  indices_name_vertices self n ->
  Snub.face_type_step self f0 = Ok self' ->
  indices_name_vertices self' n.
Proof.
  intros [Hn [He [Hf [Le Lf]]]] H. unfold Snub.face_type_step in H.
  inv_bind H. inv_bind H. inv_bind H. injection H as <-.
  unfold indices_name_vertices. read_attributes.
  split; [assumption |]. split; [assumption |]. split; [| split; [assumption |]].
  - intros flist f y Hfl Hin Hy. apply in_app_or in Hfl.
    destruct Hfl as [Hfl | [<- | []]]; [now apply (Hf flist f) |].
    rewrite <- Hn. now apply (face_coords_in_range self x0 x1 f).
  - rewrite !length_app, Lf. reflexivity.
Qed.

Lemma edge_types_frame_snub (rots : list word) :
  forall self self',
    foldM Snub.edge_type_step rots self = Ok self' ->
    edge_frame self' = edge_frame self /\
    exists elists,
      edge_indices self' = edge_indices self ++ elists /\
      length elists = length rots.
Proof.
  induction rots as [|rot rots IH]; intros self self' H; simpl in H.
  - injection H as <-. split; [reflexivity |]. exists [].
    now rewrite app_nil_r.
  - inv_bind H. destruct (IH _ _ H) as [Hf [elists [Hi Hl]]].
    unfold Snub.edge_type_step in E. inv_bind E. inv_bind E. inv_bind E. inv_bind E.
    injection E as <-. split; [rewrite Hf; reflexivity |].
    exists (x2 :: elists). read_attributes. rewrite <- app_assoc in Hi.
    split; [exact Hi | simpl; now rewrite Hl].
Qed.

Lemma face_types_frame_snub (os : list (list nat)) :
  forall self self',
    foldM Snub.face_type_step os self = Ok self' ->
    face_frame self' = face_frame self /\
    exists flists,
      face_indices self' = face_indices self ++ flists /\
      length flists = length os.
Proof.
  induction os as [|f0 os IH]; intros self self' H; simpl in H.
  - injection H as <-. split; [reflexivity |]. exists [].
    now rewrite app_nil_r.
  - inv_bind H. destruct (IH _ _ H) as [Hf [flists [Hi Hl]]].
    unfold Snub.face_type_step in E. inv_bind E. inv_bind E. inv_bind E.
    injection E as <-. split; [rewrite Hf; reflexivity |].
    exists (x1 :: flists). read_attributes. rewrite <- app_assoc in Hi.
    split; [exact Hi | simpl; now rewrite Hl].
Qed.

Lemma snub_init_fresh (upper_triangle : list Z) (init_dist : list Dist)
    (s : Snub.snub) :
  Snub.init upper_triangle init_dist = Ok s ->
  edge_indices (Snub.base s) = [] /\ edge_coords (Snub.base s) = [] /\
  face_indices (Snub.base s) = [] /\ face_coords (Snub.base s) = [].
Proof.
  unfold Snub.init. intros H. inv_bind H.
  assert (Hf : edge_indices x = [] /\ edge_coords x = [] /\
               face_indices x = [] /\ face_coords x = []).
  { unfold Polyhedra.init in E. destruct (negb _); [discriminate |].
    apply init_fresh in E. tauto. }
  inv_bind H. inv_bind H. inv_bind H. inv_bind H. inv_bind H. inv_bind H.
  injection H as <-. exact Hf.
Qed.

(** X18: in the snub that [build_geometry] returns for a freshly
    constructed snub, [num_vertices] is the number of words of the vertex
    stage and of vertex coordinates, every end of every edge and every
    corner of every face is the index of a vertex, there are three edge
    types and three face types with one coordinate list each, and the
    dict [rotations] is as the constructor left it. *)
Theorem snub_indices_name_vertices (upper_triangle : list Z) (init_dist : list Dist)
    (s s' : Snub.snub) :
  Snub.init upper_triangle init_dist = Ok s ->
  Snub.build_geometry s = Ok s' ->
  exists n ws,
    num_vertices (Snub.base s') = Some n /\
    _vwords (Snub.base s') = Some ws /\ length ws = n /\
    indices_name_vertices (Snub.base s') n /\
    length (edge_indices (Snub.base s')) = 3 /\
    length (face_indices (Snub.base s')) = 3 /\
    Snub.rotations s' = Snub.rotations s.
Proof.
  intros Hinit H.
  destruct (snub_init_fresh _ _ _ Hinit) as [Hei [Hec [Hfi Hfc]]].
  destruct (snub_init_Ok _ _ _ Hinit) as [p [q [t [_ [_ [_ [_ [_ [_ Hrot]]]]]]]]].
  unfold Snub.build_geometry in H. inv_bind H. inv_bind H.
  rename x into s1, x0 into s2, E into Hv, E0 into He.
  unfold Snub.get_vertices in Hv. inv_bind Hv. inv_bind Hv. injection Hv as <-.
  rename x into vt, x0 into coords. apply mapM_length in E0.
  set (a := set_vertices (Snub.base s) vt (ct_words vt) (length (ct_words vt)) coords)
    in *.
  assert (Pa : indices_name_vertices a (length (ct_words vt))).
  { unfold indices_name_vertices, a. read_attributes. rewrite Hei, Hec, Hfi, Hfc.
    split; [assumption |]. split; [intros ? ? [] |]. split; [intros ? ? ? [] |].
    split; reflexivity. }
  assert (Ia : edge_indices a = [] /\ face_indices a = [] /\
               num_vertices a = Some (length (ct_words vt)) /\
               _vwords a = Some (ct_words vt))
    by (unfold a; read_attributes; auto).
  destruct Ia as [Ia1 [Ia2 [Ia3 Ia4]]]. clearbody a.
  unfold Snub.get_edges in He. inv_bind He. injection He as <-. rename x into b.
  cbn [Snub.with_base Snub.base Snub.rotations] in E1.
  assert (Pb : indices_name_vertices b (length (ct_words vt))).
  { refine (foldM_invariant
              (fun x => indices_name_vertices x (length (ct_words vt)))
              Snub.edge_type_step _ _ a b Pa E1).
    intros acc r acc' _. apply snub_edge_type_step_range. }
  destruct (edge_types_frame_snub _ _ _ E1) as [Fb Ib].
  unfold Snub.get_faces in H. inv_bind H. inv_bind H. injection H as <-.
  rename x into os, x0 into c.
  cbn [Snub.with_base Snub.base Snub.rotations] in *.
  apply snub_orbits_Ok in E2.
  destruct E2 as [p' [q' [o0 [o1 [u [v [_ [_ [_ [_ [_ [_ ->]]]]]]]]]]]].
  assert (Pc : indices_name_vertices c (length (ct_words vt))).
  { assert (Pb' : indices_name_vertices
                    (set_num_edges b (total_length (edge_indices b)))
                    (length (ct_words vt))) by exact Pb.
    refine (foldM_invariant
              (fun x => indices_name_vertices x (length (ct_words vt)))
              Snub.face_type_step _ _ _ c Pb' E3).
    intros acc r acc' _. apply snub_face_type_step_range. }
  destruct (face_types_frame_snub _ _ _ E3) as [Fc Ic].
  exists (length (ct_words vt)), (ct_words vt).
  unfold face_frame in Fc. unfold edge_frame in Fb.
  injection Fb as ? ? ? ? ? ? ? ? ? ? ? ? ? ?.
  injection Fc as ? ? ? ? ? ? ? ? ? ? ? ? ? ?.
  destruct Ib as [elists [Ib Lb]]. destruct Ic as [flists [Ic Lc]].
  read_attributes.
  split; [congruence |]. split; [congruence |]. split; [reflexivity |].
  split; [exact Pc |]. split; [| split; [| reflexivity]].
  - replace (edge_indices c) with (edge_indices b) by congruence.
    rewrite Ib, Ia1, Hrot in *. simpl in Lb. simpl. congruence.
  - rewrite Ic. replace (face_indices b) with (@nil (list (list nat))) by congruence.
    simpl in *. congruence.
Qed.

End SnubGeometry.

(** ** The further properties on the box *)

(** Running the vertex stage of the box a second time. *)
Lemma get_vertices_idempotent_box :
  BasePolytope.get_vertices Box.slab0 = Ok Box.slab1 /\
  BasePolytope.get_vertices Box.slab1 = Ok Box.slab1.
Proof.
  assert (H : BasePolytope.get_vertices Box.slab0 = Ok Box.slab1)
    by (vm_compute; reflexivity).
  split; [exact H | exact (get_vertices_idempotent Box.slab0 Box.slab1 H)].
Defined.

(** The edge stage of the box leaves the vertices and the faces as they
    were. *)
Lemma stages_write_their_own_attributes_box :
  BasePolytope.get_edges Box.slab1 = Ok Box.slab2 /\
  edge_frame Box.slab2 = edge_frame Box.slab1.
Proof.
  assert (H : BasePolytope.get_edges Box.slab1 = Ok Box.slab2)
    by (vm_compute; reflexivity).
  split; [exact H |].
  exact (proj1 (proj2 (stages_write_their_own_attributes Box.slab1 Box.slab2)) H).
Defined.

(** Building the box twice gives 8 edges and 2 faces on its 4 vertices. *)
Lemma build_geometry_twice_box :
  BasePolytope.build_geometry Box.slab0 = Ok Box.slab3 /\
  exists s2,
    BasePolytope.build_geometry Box.slab3 = Ok s2 /\
    num_vertices s2 = Some 4 /\ num_edges s2 = Some 8 /\ num_faces s2 = Some 2.
Proof.
  assert (H : BasePolytope.build_geometry Box.slab0 = Ok Box.slab3)
    by (vm_compute; reflexivity).
  split; [exact H |].
  destruct (build_geometry_twice Box.slab0 Box.slab3 H)
    as [s2 [EL [FL [H2 [Hv [_ [He1 [_ [Hf1 [_ [He Hf]]]]]]]]]]].
  exists s2. split; [exact H2 |].
  assert (E0 : edge_indices Box.slab0 = []) by (vm_compute; reflexivity).
  assert (F0 : face_indices Box.slab0 = []) by (vm_compute; reflexivity).
  rewrite E0 in He1, He. rewrite F0 in Hf1, Hf. cbn [app] in He1, Hf1.
  rewrite <- He1 in He. rewrite <- Hf1 in Hf.
  rewrite Hv, He, Hf. vm_compute. repeat split.
Defined.

(** The indices of the box name its four vertices. *)
Lemma built_indices_name_vertices_box :
  @BasePolytope.init Box.collaborators [2; 2; 2]%Z [1; 0; 1]%Z = Ok Box.slab0 /\
  BasePolytope.build_geometry Box.slab0 = Ok Box.slab3 /\
  exists n,
    num_vertices Box.slab3 = Some n /\
    length (vertex_coords Box.slab3) = n /\
    (forall elist e, In elist (edge_indices Box.slab3) -> In e elist ->
                     fst e < n /\ snd e < n) /\
    (forall flist f x, In flist (face_indices Box.slab3) -> In f flist ->
                       In x f -> x < n) /\
    length (edge_coords Box.slab3) = length (edge_indices Box.slab3) /\
    length (face_coords Box.slab3) = length (face_indices Box.slab3).
Proof.
  assert (H0 : @BasePolytope.init Box.collaborators [2; 2; 2]%Z [1; 0; 1]%Z
               = Ok Box.slab0)
    by (vm_compute; reflexivity).
  assert (H : BasePolytope.build_geometry Box.slab0 = Ok Box.slab3)
    by (vm_compute; reflexivity).
  split; [exact H0 |]. split; [exact H |].
  exact (built_indices_name_vertices _ _ Box.slab0 Box.slab3 H0 H).
Defined.


(** The snub of the box before its vertex stage. *)
Lemma snub_stages_need_vertices_box :
  @Snub.init Box.collaborators [2; 2; 2]%Z [1; 1; 1]%Z = Ok Box.snub0 /\
  _move (Snub.base Box.snub0) 0 [0] = Raise TypeError /\
  Snub.get_edges Box.snub0 = Raise TypeError /\
  Snub.get_faces Box.snub0 = Raise TypeError.
Proof.
  assert (H : @Snub.init Box.collaborators [2; 2; 2]%Z [1; 1; 1]%Z = Ok Box.snub0)
    by (vm_compute; reflexivity).
  split; [exact H |].
  destruct (snub_stages_need_vertices _ _ Box.snub0 H) as [Hm [He Hf]].
  split; [exact (Hm 0 [0]) |]. split; [exact He | exact Hf].
Defined.

(** The box with no active mirror: no edge, no face. *)
Lemma no_active_mirror_box :
  (forall b,
     In b (active (Box.returned
                     (@Polyhedra.init Box.collaborators [2; 2; 2]%Z [0; 0; 0]%Z))) ->
     b = false) /\
  census (s <- BasePolytope.get_edges
                 (Box.returned
                    (@Polyhedra.init Box.collaborators [2; 2; 2]%Z [0; 0; 0]%Z)) ;;
          BasePolytope.get_faces s)
  = Some (None, Some 0, Some 0, []).
Proof.
  set (self := Box.returned
                 (@Polyhedra.init Box.collaborators [2; 2; 2]%Z [0; 0; 0]%Z)).
  assert (Ha : forall b, In b (active self) -> b = false).
  { assert (E : active self = [false; false; false]) by (vm_compute; reflexivity).
    rewrite E. intros b [<- | [<- | [<- | []]]]; reflexivity. }
  split; [exact Ha |].
  rewrite (proj1 (no_active_mirror self Ha)). vm_compute. reflexivity.
Defined.

(** Before the vertex stage of the box there are no words to print; after
    it, zero columns cannot be asked for. *)
Lemma word_representations_errors_box :
  BasePolytope.get_word_representations Box.slab0 "\rho" 3 false
  = ReprRaise AttributeError /\
  BasePolytope.get_word_representations Box.slab1 "\rho" 0 false
  = ZeroDivisionError.
Proof.
  split.
  - apply (proj1 (word_representations_errors Box.slab0 "\rho" 3 false)).
    vm_compute. reflexivity.
  - apply (proj1 (proj2 (word_representations_errors Box.slab1 "\rho" 0 false)
                    [[]; [0]; [2]; [0; 2]] ltac:(vm_compute; reflexivity))).
    split; [reflexivity | discriminate].
Defined.

(** The words of the four vertices of the box, three to a row. *)
Lemma word_representations_cells_box :
  _vwords Box.slab1 = Some [[]; [0]; [2]; [0; 2]] /\
  BasePolytope.get_word_representations Box.slab1 "\rho" 3 false
  = Repr "\begin{array}{lll}e&\rho_{0}&\rho_{2}\\\rho_{0}\rho_{2}&\end{array}".
Proof.
  assert (H : _vwords Box.slab1 = Some [[]; [0]; [2]; [0; 2]])
    by (vm_compute; reflexivity).
  split; [exact H |].
  rewrite (word_representations_cells Box.slab1 "\rho" 3 false _ H);
    [vm_compute; reflexivity | discriminate].
Defined.

(** The words of the snub of the box print as those of the box whose
    initial vertex lies on the third mirror only. *)
Lemma word_representations_snub_box :
  _vwords (Snub.base Box.snub1) = Some [[]; [0]; [2]; [0; 2]] /\
  BasePolytope.get_word_representations (Snub.base Box.snub1) "r" 3 true
  = BasePolytope.get_word_representations
      (Box.returned
         (BasePolytope.get_vertices
            (Box.returned
               (@Polyhedra.init Box.collaborators [2; 2; 2]%Z [1; 1; 0]%Z))))
      "r" 3 false.
Proof.
  assert (H : _vwords (Snub.base Box.snub1) = Some [[]; [0]; [2]; [0; 2]])
    by (vm_compute; reflexivity).
  split; [exact H |].
  apply (word_representations_snub _ _ "r" 3%Z _ H). vm_compute. reflexivity.
Defined.

(** The snub of the box: four vertices, three edge types and three face
    types on them. *)
Lemma snub_indices_name_vertices_box :
  @Snub.init Box.collaborators [2; 2; 2]%Z [1; 1; 1]%Z = Ok Box.snub0 /\
  Snub.build_geometry Box.snub0 = Ok Box.snub3 /\
  num_vertices (Snub.base Box.snub3) = Some 4 /\
  indices_name_vertices (Snub.base Box.snub3) 4 /\
  length (edge_indices (Snub.base Box.snub3)) = 3 /\
  length (face_indices (Snub.base Box.snub3)) = 3.
Proof.
  assert (H0 : @Snub.init Box.collaborators [2; 2; 2]%Z [1; 1; 1]%Z = Ok Box.snub0)
    by (vm_compute; reflexivity).
  assert (H : Snub.build_geometry Box.snub0 = Ok Box.snub3)
    by (vm_compute; reflexivity).
  split; [exact H0 |]. split; [exact H |].
  destruct (snub_indices_name_vertices _ _ Box.snub0 Box.snub3 H0 H)
    as [n [ws [Hn [Hws [Hl [Hi [He [Hf _]]]]]]]].
  assert (N : num_vertices (Snub.base Box.snub3) = Some 4) by (vm_compute; reflexivity).
  assert (En : n = 4) by congruence. rewrite En in Hi.
  split; [exact N |]. split; [exact Hi |]. split; [exact He | exact Hf].
Defined.
